(** * DP_GP_cluster.py: a shallow embedding of the driver script

    The script [bin/DP_GP_cluster.py] parses its command line, validates the
    selection criterion, seeds numpy's random generator, reads the expression
    data, rescales the time axis, derives the burn-in lengths, runs the Gibbs
    sampler of [DP_GP.core], selects one clustering with [DP_GP.cluster_tools],
    refits the selected clusters and writes the reports.

    The package [DP_GP] (core, cluster_tools, plot) is not part of the
    source: its entry points are the fields of the record [Lib], and every
    statement about the script holds for every such library.  A Python call
    is a function of its arguments and of numpy's global random state
    ([RNG]); it returns a new random state and either a value or a raised
    exception.  The script runs in a state/exception monad whose state is
    the random state and the trace of calls made so far. *)

From Stdlib Require Import ZArith QArith Floats String Ascii Sorted Lia.
From stdpp Require Import base list gmap strings.

Local Set Warnings "-inexact-float".
Open Scope Z_scope.

(* ------------------------------------------------------------------ *)
(** ** Python values used by the script *)

(** Exceptions the script can raise or propagate. *)
Inductive exn :=
| ValueError (msg : string)
| SystemExit
| NameError (name : string)
| IndexError
| TypeError
| LibError (what : string).

(** numpy's global random state: the seed last given to [np.random.seed]
    and the number of draws made since. *)
Record RNG := mkRNG { rng_seed : Z; rng_draws : N }.

(** [np.random.seed(n)]. *)
Definition seed_state (n : Z) : RNG := mkRNG n 0.

(** A Python call of the package: reads and advances the random state,
    returns a value or raises. *)
Definition py (B : Type) := RNG -> RNG * (exn + B).

(** A float64 numpy matrix, row by row. *)
Definition Mat := list (list float).

(** A pandas frame of cluster labels: column names and rows. *)
Record Frame := mkFrame { f_columns : list string; f_rows : list (list Z) }.

(** [frame.columns = names]: pandas refuses a list of the wrong length. *)
Definition set_columns (names : list string) (f : Frame) : exn + Frame :=
  if Nat.eqb (length names) (length (f_columns f))
  then inr (mkFrame names (f_rows f))
  else inl (ValueError "Length mismatch").

(** The parsed command line ([args = parser.parse_args()]). *)
Record Args := mkArgs {
  gene_expression_matrix : option string;
  output_path_prefix : option string;
  max_num_iterations : Z;
  max_iters : Z;
  s : Z;
  optimizer : string;
  alpha : float;
  m : Z;
  sigma_n2_shape : float;
  sigma_n2_rate : float;
  length_scale_mu : float;
  length_scale_sigma : float;
  sigma_f_mu : float;
  sigma_f_sigma : float;
  check_convergence : bool;
  plot : bool;
  true_times : bool;
  do_not_mean_center : bool;
  criterion : string;
  plot_types : string;
  time_unit : string }.

(** The six values returned by [core.read_gene_expression_matrices]. *)
Record ReadOut := mkReadOut {
  r_gene_expression_matrix : Mat;
  r_gene_names : list string;
  r_sigma_n : list float;
  r_sigma_n2_shape : float;
  r_sigma_n2_rate : float;
  r_t : list float }.

(** The arguments of [core.gibbs_sampler(...)], in the order of the call. *)
Record SamplerCfg := mkSamplerCfg {
  cfg_gene_expression_matrix : Mat;
  cfg_t : list float;
  cfg_max_num_iterations : Z;
  cfg_max_iters : Z;
  cfg_optimizer : string;
  cfg_burnIn_phaseI : Z;
  cfg_burnIn_phaseII : Z;
  cfg_alpha : float;
  cfg_m : Z;
  cfg_s : Z;
  cfg_check_convergence : bool;
  cfg_sigma_n : list float;
  cfg_sigma_n2_shape : float;
  cfg_sigma_n2_rate : float;
  cfg_length_scale_mu : float;
  cfg_length_scale_sigma : float;
  cfg_sigma_f_mu : float;
  cfg_sigma_f_sigma : float;
  cfg_sq_dist_eps : float;
  cfg_post_eps : float }.

(** The five values returned by [GS.sampler()]. *)
Record SamplerOut := mkSamplerOut {
  sim_mat : Mat;
  all_clusterings : Frame;
  sampled_clusterings : Frame;
  log_likelihoods : list float;
  iter_num : Z }.

(** The entry points of the package [DP_GP] that the script calls.
    [GS] is the type of sampler objects, [GP] that of cluster objects. *)
Record Lib (GS GP : Type) := mkLib {
  read_gene_expression_matrices :
    list string -> bool -> bool -> float -> float -> py ReadOut;
  gibbs_sampler : SamplerCfg -> py GS;
  sampler : GS -> py SamplerOut;
  best_clustering_by_mpear : list (list Z) -> Mat -> py (list Z);
  best_clustering_by_log_likelihood : list (list Z) -> list float -> py (list Z);
  best_clustering_by_sq_dist : list (list Z) -> Mat -> py (list Z);
  best_clustering_by_h_clust : Mat -> string -> py (list Z);
  (** [core.dp_cluster(members, sigma_n, X, Y, iter_num_at_birth)] *)
  dp_cluster : list nat -> list float -> list float -> Mat -> Z -> py GP;
  (** [c.update_cluster_attributes(gene_expression_matrix, sigma_n2_shape,
      sigma_n2_rate, length_scale_mu, length_scale_sigma, sigma_f_mu,
      sigma_f_sigma, iter_num, max_iters, optimizer)] *)
  update_cluster_attributes : GP -> Mat -> float -> float -> float -> float ->
    float -> float -> Z -> Z -> string -> py GP;
  save_posterior_similarity_matrix : Mat -> list string -> string -> py unit;
  save_clusterings : Frame -> string -> py unit;
  save_log_likelihoods : list float -> string -> py unit;
  save_cluster_membership_information : gmap Z (list string) -> string -> py unit;
  plot_similarity_matrix : Mat -> string -> list string -> py (list nat);
  save_posterior_similarity_matrix_key : list string -> string -> py unit;
  plot_cluster_sizes_over_iterations :
    list (list Z) -> Z -> Z -> Z -> string -> list string -> py unit;
  plot_cluster_gene_expression : gmap Z GP -> Mat -> list string -> list float ->
    list float -> string -> string -> list string -> py unit }.

Arguments read_gene_expression_matrices {GS GP}.
Arguments gibbs_sampler {GS GP}.
Arguments sampler {GS GP}.
Arguments best_clustering_by_mpear {GS GP}.
Arguments best_clustering_by_log_likelihood {GS GP}.
Arguments best_clustering_by_sq_dist {GS GP}.
Arguments best_clustering_by_h_clust {GS GP}.
Arguments dp_cluster {GS GP}.
Arguments update_cluster_attributes {GS GP}.
Arguments save_posterior_similarity_matrix {GS GP}.
Arguments save_clusterings {GS GP}.
Arguments save_log_likelihoods {GS GP}.
Arguments save_cluster_membership_information {GS GP}.
Arguments plot_similarity_matrix {GS GP}.
Arguments save_posterior_similarity_matrix_key {GS GP}.
Arguments plot_cluster_sizes_over_iterations {GS GP}.
Arguments plot_cluster_gene_expression {GS GP}.

(* ------------------------------------------------------------------ *)
(** ** Numerics of the script *)

(** *** [t /= np.mean(np.diff(t))], over any number type

    The time rescaling is written once over the operations it uses, and read
    at numpy's float64 ([float_ops]) and, for the exact-arithmetic reading,
    at the rationals ([Q_ops]). *)
Record NumOps (A : Type) := mkNumOps {
  n_zero : A;
  n_add : A -> A -> A;
  n_sub : A -> A -> A;
  n_div : A -> A -> A;
  n_of_nat : nat -> A }.
Arguments n_zero {A}.
Arguments n_add {A}.
Arguments n_sub {A}.
Arguments n_div {A}.
Arguments n_of_nat {A}.

Section Rescale.
Context {A : Type} (o : NumOps A).

(** [np.diff(t)]: the differences of consecutive entries. *)
Fixpoint np_diff (t : list A) : list A :=
  match t with
  | x :: ((y :: _) as r) => n_sub o y x :: np_diff r
  | _ => []
  end.

(** [np.add.reduce], left to right (numpy's pairwise summation adds
    arrays shorter than eight entries in this order). *)
Definition np_sum (l : list A) : A := fold_left (n_add o) l (n_zero o).

(** [np.mean(l)]: the sum divided by the length. *)
Definition np_mean (l : list A) : A := n_div o (np_sum l) (n_of_nat o (length l)).

(** [t /= np.mean(np.diff(t))]. *)
Definition rescale_t (t : list A) : list A :=
  let d := np_mean (np_diff t) in map (fun x => n_div o x d) t.
End Rescale.

(** IEEE binary64, as numpy computes. *)
Definition float_ops : NumOps float :=
  mkNumOps float 0%float PrimFloat.add PrimFloat.sub PrimFloat.div
    (fun n => PrimFloat.of_uint63 (Uint63.of_Z (Z.of_nat n))).

(** Exact rational arithmetic. *)
Definition Q_ops : NumOps Q :=
  mkNumOps Q 0%Q Qplus Qminus Qdiv (fun n => inject_Z (Z.of_nat n)).

(** *** Burn-in lengths:
    [burnIn_phaseI = int(np.floor(args.max_num_iterations/5) * 1.2)] *)

(** A finite binary64 number [mant * 2 ^ expo]. *)
Record b64 := B64 { mant : Z; expo : Z }.

(** Rounding of [m * 2 ^ e] ([m >= 0]) to a 53-bit significand, to nearest,
    ties to even. *)
Definition round_mag (m e : Z) : Z * Z :=
  let sh := Z.log2 m - 52 in
  if sh <=? 0 then (m, e)
  else
    let q := Z.shiftr m sh in
    let r := m - Z.shiftl q sh in
    let half := Z.shiftl 1 (sh - 1) in
    let q' := if (half <? r) || ((r =? half) && Z.odd q) then q + 1 else q in
    (q', e + sh).

Definition round53 (x : b64) : b64 :=
  let '(q, e) := round_mag (Z.abs (mant x)) (expo x) in B64 (Z.sgn (mant x) * q) e.

(** Conversion of an integer to float64. *)
Definition b64_of_int (k : Z) : b64 := round53 (B64 k 0).

(** Float64 multiplication (no overflow arises for the operands below). *)
Definition b64_mul (x y : b64) : b64 :=
  round53 (B64 (mant x * mant y) (expo x + expo y)).

(** The float64 literal [1.2] = 0x1.3333333333333p+0. *)
Definition b64_1_2 : b64 := B64 5404319552844595 (-52).

(** [int(x)]: truncation toward zero. *)
Definition py_int (x : b64) : Z :=
  if 0 <=? expo x then mant x * 2 ^ expo x
  else Z.quot (mant x) (2 ^ (- expo x)).

(** [np.floor(k)] of a Python integer: numpy holds [k] as int64 (or uint64
    from 2^63 on), converts it to float64 and floors it, which keeps the
    integral value; an integer beyond 64 bits becomes an object array, and
    the ufunc raises. *)
Definition np_floor_int (k : Z) : exn + b64 :=
  if (k <? - 2 ^ 63) || (2 ^ 64 <=? k) then inl TypeError
  else inr (b64_of_int k).

(** Python 2 integer division [n/5] floors, like [Z.div]. *)
Definition burnIn_phaseI_of (n : Z) : exn + Z :=
  match np_floor_int (n / 5) with
  | inl e => inl e
  | inr x => inr (py_int (b64_mul x b64_1_2))
  end.

(** [burnIn_phaseII = burnIn_phaseI * 2]. *)
Definition burnIn_phaseII_of (b1 : Z) : Z := b1 * 2.

Example burnIn_phaseI_1000 : burnIn_phaseI_of 1000 = inr 240.
Proof. reflexivity. Qed.
Example burnIn_phaseI_15 : burnIn_phaseI_of 15 = inr 3.
Proof. reflexivity. Qed.
Example burnIn_phaseI_12345 : burnIn_phaseI_of 12345 = inr 2962.
Proof. reflexivity. Qed.
Example burnIn_phaseI_big : burnIn_phaseI_of (2 ^ 63) = inr 2213609288845146112.
Proof. reflexivity. Qed.
Example burnIn_phaseI_big2 : burnIn_phaseI_of (2 ^ 64 * 5 - 1) = inr 22136092888451461120.
Proof. reflexivity. Qed.

(* ------------------------------------------------------------------ *)
(** ** The script's effects *)

(** Observable steps of a run: the calls into the package (recorded as they
    are made, with the arguments that matter to the statements), the seeding
    of numpy, and the help message. *)
Inductive event :=
| EvHelp
| EvSeed (n : Z)
| EvRead (files : list string) (true_times do_not_mean_center : bool)
    (shape rate : float)
| EvSamplerInit (cfg : SamplerCfg)
| EvSamplerRun
| EvSelect (strategy : string) (linkage : option string)
| EvNewCluster (cluster : Z) (members : list nat) (iter_num : Z)
| EvUpdate (cluster : Z) (iter_num max_iters : Z) (optimizer : string)
| EvSave (what path : string)
| EvPlot (what : string).

Record St := mkSt { st_rng : RNG; st_trace : list event }.

(** State and exception monad of the script, with stdpp's notations. *)
Definition M (A : Type) := St -> St * (exn + A).

Global Instance M_ret : MRet M := fun A x st => (st, inr x).
Global Instance M_bind : MBind M := fun A B k c st =>
  match c st with
  | (st', inr x) => k x st'
  | (st', inl e) => (st', inl e)
  end.

Definition raise {A} (e : exn) : M A := fun st => (st, inl e).

Definition lift {A} (r : exn + A) : M A := fun st => (st, r).

Definition emit (e : event) : M unit :=
  fun st => (mkSt (st_rng st) (st_trace st ++ [e]), inr tt).

(** A call into the package, recorded in the trace. *)
Definition call {B} (e : event) (p : py B) : M B :=
  fun st => let '(r', res) := p (st_rng st) in (mkSt r' (st_trace st ++ [e]), res).

(** [np.random.seed(n)]. *)
Definition np_seed (n : Z) : M unit :=
  fun st => (mkSt (seed_state n) (st_trace st ++ [EvSeed n]), inr tt).

(** The state a run starts in: whatever random state the process has. *)
Definition init_st (r : RNG) : St := mkSt r [].

(* ------------------------------------------------------------------ *)
(** ** Pure steps of the script *)

(** [s.split(',')]. *)
Fixpoint split_aux (c : ascii) (x : string) (cur : string) : list string :=
  match x with
  | EmptyString => [cur]
  | String a r =>
      if Ascii.eqb a c then cur :: split_aux c r EmptyString
      else split_aux c r (String.append cur (String a EmptyString))
  end.

Definition py_split (c : ascii) (x : string) : list string := split_aux c x EmptyString.

Example py_split_ex : py_split "," "a.txt,b.txt" = ["a.txt"; "b.txt"].
Proof. reflexivity. Qed.

(** The criteria accepted at line 279. *)
Definition criteria : list string :=
  ["MAP"; "MPEAR"; "least_squares"; "h_clust_avg"; "h_clust_comp"].

Definition criterion_ok (c : string) : bool := existsb (String.eqb c) criteria.

Definition criterion_msg : string :=
  "incorrect criterion. Please choose from among the following options:
MPEAR, MAP, least_squares, h_clust_avg, h_clust_comp".

(** [enumerate(zip(gene_names, optimal_clusters))]. *)
Definition enumerate_zip (names : list string) (clusters : list Z)
  : list (nat * (string * Z)) :=
  let l := zip names clusters in zip (seq 0 (length l)) l.

(** One pass of the grouping loop (lines 355-357) over the two
    [collections.defaultdict(list)]: [d[cluster].append(x)]. *)
Definition group_step (acc : gmap Z (list nat) * gmap Z (list string))
  (x : nat * (string * Z)) : gmap Z (list nat) * gmap Z (list string) :=
  let '(labels, label_names) := acc in
  let '(gene, (gene_name, cluster)) := x in
  (<[cluster := default [] (labels !! cluster) ++ [gene]]> labels,
   <[cluster := default [] (label_names !! cluster) ++ [gene_name]]> label_names).

(** [optimal_cluster_labels] and [optimal_cluster_labels_original_gene_names]. *)
Definition group (names : list string) (clusters : list Z)
  : gmap Z (list nat) * gmap Z (list string) :=
  foldl group_step (∅, ∅) (enumerate_zip names clusters).

(** [gene_expression_matrix[genes,:]]: numpy raises on an index out of range. *)
Definition take_rows (gem : Mat) (genes : list nat) : exn + Mat :=
  match mapM (fun g => gem !! g) genes with
  | Some rows => inr rows
  | None => inl IndexError
  end.

(** What the pipeline has computed when the reports are written. *)
Record Outs (GP : Type) := mkOuts {
  o_output_path_prefix : string;
  o_read : ReadOut;
  o_t : list float;
  o_burnIn_phaseI : Z;
  o_burnIn_phaseII : Z;
  o_sampler_out : SamplerOut;
  o_sampled_clusterings : Frame;
  o_all_clusterings : Frame;
  o_optimal_clusters : list Z;
  o_labels : gmap Z (list nat);
  o_label_names : gmap Z (list string);
  o_clusters_GP : gmap Z GP }.
Arguments mkOuts {GP}.
Arguments o_output_path_prefix {GP}.
Arguments o_read {GP}.
Arguments o_t {GP}.
Arguments o_burnIn_phaseI {GP}.
Arguments o_burnIn_phaseII {GP}.
Arguments o_sampler_out {GP}.
Arguments o_sampled_clusterings {GP}.
Arguments o_all_clusterings {GP}.
Arguments o_optimal_clusters {GP}.
Arguments o_labels {GP}.
Arguments o_label_names {GP}.
Arguments o_clusters_GP {GP}.

(** [sq_dist_eps, post_eps = 0.01, 1e-5] *)
Definition sq_dist_eps : float := 0.01%float.
Definition post_eps : float := 0.00001%float.

(* ------------------------------------------------------------------ *)
(** ** The script *)

Section Script.
Context {GS GP : Type} (lib : Lib GS GP).

(** Lines 338-347: the criterion dispatch.  With no branch taken,
    [optimal_clusters] is unbound and line 355 raises [NameError]. *)
Definition select_optimal (crit : string) (sampled : Frame)
  (lls : list float) (sim : Mat) : M (list Z) :=
  if String.eqb crit "MPEAR" then
    call (EvSelect "best_clustering_by_mpear" None)
      (best_clustering_by_mpear lib (f_rows sampled) sim)
  else if String.eqb crit "MAP" then
    call (EvSelect "best_clustering_by_log_likelihood" None)
      (best_clustering_by_log_likelihood lib (f_rows sampled) lls)
  else if String.eqb crit "least_squares" then
    call (EvSelect "best_clustering_by_sq_dist" None)
      (best_clustering_by_sq_dist lib (f_rows sampled) sim)
  else if String.eqb crit "h_clust_avg" then
    call (EvSelect "best_clustering_by_h_clust" (Some "average"))
      (best_clustering_by_h_clust lib sim "average")
  else if String.eqb crit "h_clust_comp" then
    call (EvSelect "best_clustering_by_h_clust" (Some "complete"))
      (best_clustering_by_h_clust lib sim "complete")
  else raise (NameError "optimal_clusters").

(** Lines 359-362: for each [(cluster, genes)] of
    [optimal_cluster_labels.iteritems()], build a [dp_cluster] of the
    members (its [Y] is the members' rows, transposed in the source) and
    store the result of [update_cluster_attributes] under [cluster]. *)
Fixpoint refit_loop (a : Args) (gem : Mat) (sigma_n t : list float)
  (shape rate : float) (it : Z) (items : list (Z * list nat))
  (acc : gmap Z GP) : M (gmap Z GP) :=
  match items with
  | [] => mret acc
  | (cluster, genes) :: rest =>
      Y ← lift (take_rows gem genes);
      c ← call (EvNewCluster cluster genes it)
            (dp_cluster lib genes sigma_n t Y it);
      let acc1 := <[cluster := c]> acc in
      c' ← call (EvUpdate cluster it (max_iters a) (optimizer a))
             (update_cluster_attributes lib c gem shape rate
                (length_scale_mu a) (length_scale_sigma a) (sigma_f_mu a)
                (sigma_f_sigma a) it (max_iters a) (optimizer a));
      refit_loop a gem sigma_n t shape rate it rest (<[cluster := c']> acc1)
  end.

(** Lines 268-362: argument checks, seeding, input, time rescaling,
    burn-in, sampling, selection and refit. *)
Definition pipeline (a : Args) : M (Outs GP) :=
  match gene_expression_matrix a, output_path_prefix a with
  | Some input, Some out =>
    if negb (criterion_ok (criterion a)) then raise (ValueError criterion_msg)
    else
      np_seed 1234 ;;
      let files := py_split "," input in
      rd ← call (EvRead files (true_times a) (do_not_mean_center a)
                   (sigma_n2_shape a) (sigma_n2_rate a))
             (read_gene_expression_matrices lib files (true_times a)
                (do_not_mean_center a) (sigma_n2_shape a) (sigma_n2_rate a));
      let gem := r_gene_expression_matrix rd in
      let names := r_gene_names rd in
      let t := rescale_t float_ops (r_t rd) in
      b1 ← lift (burnIn_phaseI_of (max_num_iterations a));
      let b2 := burnIn_phaseII_of b1 in
      let cfg := mkSamplerCfg gem t (max_num_iterations a) (max_iters a)
                   (optimizer a) b1 b2 (alpha a) (m a) (s a)
                   (check_convergence a) (r_sigma_n rd) (r_sigma_n2_shape rd)
                   (r_sigma_n2_rate rd) (length_scale_mu a) (length_scale_sigma a)
                   (sigma_f_mu a) (sigma_f_sigma a) sq_dist_eps post_eps in
      gs ← call (EvSamplerInit cfg) (gibbs_sampler lib cfg);
      so ← call EvSamplerRun (sampler lib gs);
      sampled ← lift (set_columns names (sampled_clusterings so));
      allc ← lift (set_columns names (all_clusterings so));
      opt ← select_optimal (criterion a) sampled (log_likelihoods so) (sim_mat so);
      let labels := (group names opt).1 in
      let label_names := (group names opt).2 in
      gp ← refit_loop a gem (r_sigma_n rd) t (r_sigma_n2_shape rd)
             (r_sigma_n2_rate rd) (iter_num so) (map_to_list labels) ∅;
      mret (mkOuts out rd t b1 b2 so sampled allc opt labels label_names gp)
  | _, _ => emit EvHelp ;; raise SystemExit
  end.

(** Lines 370-388: the reports, then the plots if [--plot]. *)
Definition report (a : Args) (o : Outs GP) : M unit :=
  let out := o_output_path_prefix o in
  let rd := o_read o in
  let names := r_gene_names rd in
  let so := o_sampler_out o in
  let membership_file := String.append out "_optimal_clustering.txt" in
  call (EvSave "posterior_similarity_matrix" out)
    (save_posterior_similarity_matrix lib (sim_mat so) names out) ;;
  call (EvSave "clusterings" out)
    (save_clusterings lib (o_sampled_clusterings o) out) ;;
  call (EvSave "log_likelihoods" out)
    (save_log_likelihoods lib (log_likelihoods so) out) ;;
  call (EvSave "optimal_clustering" membership_file)
    (save_cluster_membership_information lib (o_label_names o) membership_file) ;;
  if plot a then
    let types := py_split "," (plot_types a) in
    key ← call (EvPlot "similarity_matrix")
            (plot_similarity_matrix lib (sim_mat so) out types);
    key_names ← lift (match mapM (fun i => names !! i) key with
                      | Some l => inr l
                      | None => inl IndexError
                      end);
    call (EvSave "posterior_similarity_matrix_key" out)
      (save_posterior_similarity_matrix_key lib key_names out) ;;
    call (EvPlot "cluster_sizes")
      (plot_cluster_sizes_over_iterations lib (f_rows (o_all_clusterings o))
         (o_burnIn_phaseI o) (o_burnIn_phaseII o) (m a) out types) ;;
    call (EvPlot "cluster_gene_expression")
      (plot_cluster_gene_expression lib (o_clusters_GP o)
         (r_gene_expression_matrix rd) names (o_t o) (o_t o) (time_unit a) out types)
  else mret tt.

(** The whole script. *)
Definition main (a : Args) : M unit := o ← pipeline a; report a o.
End Script.

(* ------------------------------------------------------------------ *)
(** ** A library for concrete runs *)

(** [parser.parse_args()] with the defaults of lines 136-259 and the two
    required paths given. *)
Definition args_with (input out : option string) (alpha : float) (m s : Z)
  (optimizer criterion : string) : Args :=
  mkArgs input out 1000 1000 s optimizer alpha m 12%float 2%float
    0%float 1%float 0%float 1%float false false false false criterion "pdf" "".

Definition default_args (input out : string) : Args :=
  args_with (Some input) (Some out) 1%float 4 3 "lbfgsb" "MAP".

(** Modelled from the spec: the sweep schedule of [core.gibbs_sampler]'s
    [sampler()] (spec 4.2), which is not part of the source.  The sampler
    checks none of its parameters; without [--check_convergence] it runs
    sweeps [0 .. max_num_iterations - 1]; a sweep with
    [iteration >= burnInPhaseII] and [iteration mod s = 0] is archived (the
    modulo raises for [s = 0]).  The reassignment draws are not modelled:
    every gene keeps cluster 0, its log-likelihood is 0 and S is all ones. *)
Fixpoint spec_sweeps (cfg : SamplerCfg) (G : nat) (its : list Z)
  : exn + (list (list Z) * list (list Z) * list float) :=
  match its with
  | [] => inr ([], [], [])
  | i :: rest =>
      let row := repeat 0 G in
      if cfg_burnIn_phaseII cfg <=? i then
        if cfg_s cfg =? 0 then inl (LibError "ZeroDivisionError")
        else
          match spec_sweeps cfg G rest with
          | inl e => inl e
          | inr (alls, kept, lls) =>
              if i mod cfg_s cfg =? 0
              then inr (row :: alls, row :: kept, 0%float :: lls)
              else inr (row :: alls, kept, lls)
          end
      else
        match spec_sweeps cfg G rest with
        | inl e => inl e
        | inr (alls, kept, lls) => inr (row :: alls, kept, lls)
        end
  end.

Definition spec_sampler (cfg : SamplerCfg) : py SamplerOut := fun r =>
  let G := length (cfg_gene_expression_matrix cfg) in
  let n := cfg_max_num_iterations cfg in
  let cols := map (fun i => String "g" EmptyString) (seq 0 G) in
  match spec_sweeps cfg G (map Z.of_nat (seq 0 (Z.to_nat n))) with
  | inl e => (r, inl e)
  | inr (alls, kept, lls) =>
      (r, inr (mkSamplerOut (map (fun _ => repeat 1%float G) (seq 0 G))
                 (mkFrame cols alls) (mkFrame cols kept) lls n))
  end.

(** Modelled from the spec: MAP selection of [cluster_tools] (spec 4.3),
    the archived clustering of largest log-likelihood, the first one on
    ties. *)
Fixpoint spec_map_select (best : list Z * float) (rows : list (list Z))
  (lls : list float) : list Z :=
  match rows, lls with
  | r :: rs, l :: ls =>
      if PrimFloat.ltb best.2 l then spec_map_select (r, l) rs ls
      else spec_map_select best rs ls
  | _, _ => best.1
  end.

Definition spec_best_by_log_likelihood (rows : list (list Z)) (lls : list float)
  : py (list Z) := fun r =>
  match rows, lls with
  | r0 :: rs, l0 :: ls => (r, inr (spec_map_select (r0, l0) rs ls))
  | _, _ => (r, inl (LibError "ValueError"))
  end.

(** The package for a run whose input file holds [data]: the sampler and
    MAP selection above; the other selectors are not modelled (they raise);
    clusters are their member lists; writing and plotting succeed. *)
Definition spec_lib (data : ReadOut) : Lib SamplerCfg (list nat) :=
  mkLib SamplerCfg (list nat)
    (fun _ _ _ _ _ r => (r, inr data))
    (fun cfg r => (r, inr cfg))
    spec_sampler
    (fun _ _ r => (r, inl (LibError "MPEAR")))
    spec_best_by_log_likelihood
    (fun _ _ r => (r, inl (LibError "least_squares")))
    (fun _ _ r => (r, inl (LibError "h_clust")))
    (fun genes _ _ _ _ r => (r, inr genes))
    (fun c _ _ _ _ _ _ _ _ _ _ r => (r, inr c))
    (fun _ _ _ r => (r, inr tt))
    (fun _ _ r => (r, inr tt))
    (fun _ _ r => (r, inr tt))
    (fun _ _ r => (r, inr tt))
    (fun sim _ _ r => (r, inr (seq 0 (length sim))))
    (fun _ _ r => (r, inr tt))
    (fun _ _ _ _ _ _ r => (r, inr tt))
    (fun _ _ _ _ _ _ _ _ r => (r, inr tt)).

(** Three genes over three equally spaced time points. *)
Definition data3 : ReadOut :=
  mkReadOut [[1%float; 2%float; 3%float]; [1%float; 2%float; 4%float];
             [3%float; 2%float; 1%float]]
    ["g1"; "g2"; "g3"] [1%float; 1%float; 1%float] 12%float 2%float
    [0%float; 1%float; 2%float].

(** The time points 0, 0.7 and 2.9. *)
Definition data_t3 : ReadOut :=
  mkReadOut [[1%float; 2%float; 3%float]; [1%float; 2%float; 4%float];
             [3%float; 2%float; 1%float]]
    ["g1"; "g2"; "g3"] [1%float; 1%float; 1%float] 12%float 2%float
    [0%float; 0.7%float; 2.9%float].

Definition run_main {GS GP} (lib : Lib GS GP) (a : Args) (r : RNG)
  : St * (exn + unit) := main lib a (init_st r).

(** Two gene names for a matrix of three rows. *)
Definition data_names2 : ReadOut :=
  mkReadOut [[1%float; 2%float; 3%float]; [1%float; 2%float; 4%float];
             [3%float; 2%float; 1%float]]
    ["g1"; "g2"] [1%float; 1%float; 1%float] 12%float 2%float
    [0%float; 1%float; 2%float].

(** [default_args] with [--plot] and [--plot_types pdf,png]. *)
Definition plot_args (input out : string) : Args :=
  mkArgs (Some input) (Some out) 1000 1000 3 "lbfgsb" 1%float 4 12%float 2%float
    0%float 1%float 0%float 1%float false true false false "MAP" "pdf,png" "".

(** What a run over [data3] has computed when the reports start: every
    gene in cluster 0. *)
Definition outs3 : Outs (list nat) :=
  let frame := mkFrame ["g1"; "g2"; "g3"] [[0; 0; 0]] in
  mkOuts "out" data3 (r_t data3) 240 480
    (mkSamplerOut [[1%float; 1%float; 1%float]; [1%float; 1%float; 1%float];
                   [1%float; 1%float; 1%float]] frame frame [0%float] 1000)
    frame frame [0; 0; 0] (<[0 := [0%nat; 1%nat; 2%nat]]> ∅)
    (<[0 := ["g1"; "g2"; "g3"]]> ∅) (<[0 := [0%nat; 1%nat; 2%nat]]> ∅).

(* ------------------------------------------------------------------ *)
(** ** Vocabulary of the statements *)

(** Strictly increasing, for a strict order [lt]. *)
Fixpoint increasing {A} (lt : A -> A -> Prop) (t : list A) : Prop :=
  match t with
  | x :: ((y :: _) as r) => lt x y /\ increasing lt r
  | _ => True
  end.

(** The genes the grouping loop files under [cluster]. *)
Definition members (cluster : Z) (xs : list (nat * (string * Z))) : list nat :=
  map fst (filter (fun x => x.2.2 = cluster) xs).

(** The sum of the member-list lengths of a grouping. *)
Definition total_members (labels : gmap Z (list nat)) : nat :=
  sum_list (map (fun kv => length kv.2) (map_to_list labels)).

(** The calls of the refit loop over [optimal_cluster_labels]. *)
Definition refit_events (labels : gmap Z (list nat)) (it max_iters : Z)
  (opt : string) : list event :=
  concat (map (fun kv => [EvNewCluster kv.1 kv.2 it; EvUpdate kv.1 it max_iters opt])
            (map_to_list labels)).

(** The phase of an event: 0 argument checks and seeding, 1 input,
    2 sampler construction, 3 sampling, 4 selection, 5 refit, 6 reports. *)
Definition phase (e : event) : nat :=
  match e with
  | EvHelp | EvSeed _ => 0
  | EvRead _ _ _ _ _ => 1
  | EvSamplerInit _ => 2
  | EvSamplerRun => 3
  | EvSelect _ _ => 4
  | EvNewCluster _ _ _ | EvUpdate _ _ _ _ => 5
  | EvSave _ _ | EvPlot _ => 6
  end.

(** Order of phases in a trace: the first five phases happen at most once
    and strictly in order; refit and report steps may repeat. *)
Definition phase_before (p q : nat) : Prop := (p < q)%nat \/ (p = q /\ (5 <= p)%nat).

Definition is_report (e : event) : Prop := phase e = 6%nat.

(** The part of the trace a computation adds, with its phases in
    [lo .. hi] and in order. *)
Definition phase_range {A} (lo hi : nat) (c : M A) : Prop :=
  forall st, exists l, st_trace (c st).1 = st_trace st ++ l /\
    Sorted (fun e1 e2 => phase_before (phase e1) (phase e2)) l /\
    Forall (fun e => (lo <= phase e <= hi)%nat) l.

(** [sep.join(l)]. *)
Fixpoint py_join (sep : string) (l : list string) : string :=
  match l with
  | [] => EmptyString
  | [x] => x
  | x :: r => String.append x (String.append sep (py_join sep r))
  end.

(** [x.count(c)] for a one-character [c]. *)
Fixpoint count_char (c : ascii) (x : string) : nat :=
  match x with
  | EmptyString => 0%nat
  | String a r => if Ascii.eqb a c then S (count_char c r) else count_char c r
  end.

(** The four files written at lines 370-373, in the order of the source. *)
Definition report_saves (out : string) : list event :=
  [EvSave "posterior_similarity_matrix" out; EvSave "clusterings" out;
   EvSave "log_likelihoods" out;
   EvSave "optimal_clustering" (String.append out "_optimal_clustering.txt")].

(** The arguments of [core.gibbs_sampler] at lines 322-324, for the command
    line [a], the values [rd] read at line 293 and [burnIn_phaseI = b1]. *)
Definition sampler_cfg (a : Args) (rd : ReadOut) (b1 : Z) : SamplerCfg :=
  mkSamplerCfg (r_gene_expression_matrix rd) (rescale_t float_ops (r_t rd))
    (max_num_iterations a) (max_iters a) (optimizer a) b1 (burnIn_phaseII_of b1)
    (alpha a) (m a) (s a) (check_convergence a) (r_sigma_n rd) (r_sigma_n2_shape rd)
    (r_sigma_n2_rate rd) (length_scale_mu a) (length_scale_sigma a) (sigma_f_mu a)
    (sigma_f_sigma a) sq_dist_eps post_eps.

(** The two calls the refit loop makes for the entry [(cluster, genes)]. *)
Definition refit_item_events (it max_iters : Z) (opt : string) (kv : Z * list nat)
  : list event :=
  [EvNewCluster kv.1 kv.2 it; EvUpdate kv.1 it max_iters opt].

(** The gene names the grouping loop files under [cluster]. *)
Definition member_names (cluster : Z) (xs : list (nat * (string * Z))) : list string :=
  map (fun x => x.2.1) (filter (fun x => x.2.2 = cluster) xs).

(* ================================================================== *)
(** * Proofs *)

(** ** Float64 rounding bounds *)

Lemma round_mag_bound (m e : Z) : 0 <= m ->
  0 <= fst (round_mag m e) /\ e <= snd (round_mag m e) /\
  4503599627370496 * (fst (round_mag m e) * 2 ^ (snd (round_mag m e) - e))
    <= (4503599627370497) * m.
Proof.
  intros Hm. unfold round_mag. cbv zeta.
  destruct (Z.log2 m - 52 <=? 0) eqn:Hsh.
  - cbn [fst snd]. rewrite Z.sub_diag, Z.pow_0_r. lia.
  - apply Z.leb_gt in Hsh.
    set (sh := Z.log2 m - 52) in *.
    assert (Hm0 : 0 < m).
    { destruct (Z.eq_dec m 0) as [->|]; [|lia]. cbv in Hsh. discriminate. }
    assert (Hp : 4503599627370496 * 2 ^ sh <= m).
    { change 4503599627370496 with (2 ^ 52). rewrite <- Z.pow_add_r by lia. unfold sh.
      replace (52 + (Z.log2 m - 52)) with (Z.log2 m) by lia.
      apply Z.log2_spec; lia. }
    assert (Hpos : 0 < 2 ^ sh) by (apply Z.pow_pos_nonneg; lia).
    rewrite Z.shiftr_div_pow2 by lia.
    set (q := m / 2 ^ sh).
    assert (Hq : q * 2 ^ sh <= m).
    { unfold q. rewrite Z.mul_comm. apply Z.mul_div_le. lia. }
    assert (Hq0 : 0 <= q) by (apply Z.div_pos; lia).
    cbn [fst snd]. replace (e + sh - e) with sh by lia.
    match goal with |- context [if ?b then q + 1 else q] => destruct b end;
      (split; [lia|]; split; [lia|]); nia.
Qed.

Lemma round53_nonneg (x : b64) : 0 <= mant x ->
  round53 x = B64 (fst (round_mag (mant x) (expo x))) (snd (round_mag (mant x) (expo x))).
Proof.
  intros H. unfold round53. rewrite Z.abs_eq by lia.
  destruct (Z.eq_dec (mant x) 0) as [E|E].
  - rewrite E. reflexivity.
  - rewrite (Z.sgn_pos (mant x)) by lia.
    destruct (round_mag (mant x) (expo x)) as [q e]. cbn [fst snd]. rewrite Z.mul_1_l. reflexivity.
Qed.

Lemma py_int_bound (x : b64) (E : Z) : 0 <= mant x -> 0 <= E -> 0 <= expo x + E ->
  0 <= py_int x /\ py_int x * 2 ^ E <= mant x * 2 ^ (expo x + E).
Proof.
  intros Hm HE HeE. unfold py_int.
  destruct (0 <=? expo x) eqn:He.
  - apply Z.leb_le in He. rewrite Z.pow_add_r by lia.
    split; [apply Z.mul_nonneg_nonneg; [lia|apply Z.pow_nonneg; lia]|lia].
  - apply Z.leb_gt in He.
    assert (Hp : 0 < 2 ^ (- expo x)) by (apply Z.pow_pos_nonneg; lia).
    rewrite Z.quot_div_nonneg by lia.
    split; [apply Z.div_pos; lia|].
    replace (2 ^ E) with (2 ^ (- expo x) * 2 ^ (expo x + E))
      by (rewrite <- Z.pow_add_r by lia; f_equal; lia).
    assert (0 <= 2 ^ (expo x + E)) by (apply Z.pow_nonneg; lia).
    assert (mant x / 2 ^ (- expo x) * 2 ^ (- expo x) <= mant x).
    { rewrite Z.mul_comm. apply Z.mul_div_le. lia. }
    nia.
Qed.

Lemma trunc_mul_bound (k : Z) : 0 <= k ->
  0 <= py_int (b64_mul (b64_of_int k) b64_1_2) /\
  91343852333181432387730302044767688728495783936 * py_int (b64_mul (b64_of_int k) b64_1_2)
    <= (4503599627370497) * (4503599627370497) * 5404319552844595 * k.
Proof.
  intros Hk. unfold b64_of_int.
  rewrite round53_nonneg by (cbn [mant expo]; lia). cbn [mant expo].
  destruct (round_mag_bound k 0 Hk) as (Hq1 & He1 & B1).
  set (q1 := fst (round_mag k 0)) in *. set (e1 := snd (round_mag k 0)) in *.
  rewrite Z.sub_0_r in B1.
  unfold b64_mul, b64_1_2. cbn [mant expo].
  rewrite round53_nonneg by (cbn [mant expo]; lia). cbn [mant expo].
  destruct (round_mag_bound (q1 * 5404319552844595) (e1 + -52)) as (Hq2 & He2 & B2); [lia|].
  set (q2 := fst (round_mag (q1 * 5404319552844595) (e1 + -52))) in *.
  set (e2 := snd (round_mag (q1 * 5404319552844595) (e1 + -52))) in *.
  destruct (py_int_bound (B64 q2 e2) 52) as [HI BI]; cbn [mant expo]; try lia.
  cbn [mant expo] in BI. split; [exact HI|].
  set (I := py_int (B64 q2 e2)) in *.
  set (u := e2 - (e1 + -52)) in *.
  assert (Hpu : 0 < 2 ^ u) by (apply Z.pow_pos_nonneg; lia).
  assert (Hp1 : 0 < 2 ^ e1) by (apply Z.pow_pos_nonneg; lia).
  assert (Hsplit : 2 ^ (e2 + 52) = 2 ^ u * 2 ^ e1)
    by (rewrite <- Z.pow_add_r by lia; f_equal; lia).
  rewrite Hsplit in BI.
  (* I * 2^52 <= q2 * 2^u * 2^e1 *)
  assert (S1 : 4503599627370496 * (I * 4503599627370496) <= (4503599627370497) * 5404319552844595 * (q1 * 2 ^ e1)).
  { assert (4503599627370496 * (q2 * 2 ^ u) * 2 ^ e1 <= (4503599627370497) * (q1 * 5404319552844595) * 2 ^ e1)
      by (apply Z.mul_le_mono_nonneg_r; lia).
    nia. }
  assert (S2 : 4503599627370496 * (q1 * 2 ^ e1) <= (4503599627370497) * k) by exact B1.
  nia.
Qed.

(** ** C8: the burn-in lengths fit in the iteration budget *)

(** Claim C8.  For every non-negative [max_num_iterations] n, the script
    computes [burnIn_phaseI = int(np.floor(n/5) * 1.2)] with float64
    rounding and [burnIn_phaseII = 2 * burnIn_phaseI], and
    [0 <= burnIn_phaseI <= burnIn_phaseII <= n]: the burn-in never exceeds
    the budget.  (Only for [n/5 >= 2^64], where numpy cannot hold the integer,
    does the computation raise instead of deriving the lengths.) *)
Theorem burnIn_phases_within_budget (n : Z) : 0 <= n ->
  match burnIn_phaseI_of n with
  | inr b1 => burnIn_phaseII_of b1 = 2 * b1 /\
      0 <= b1 /\ b1 <= burnIn_phaseII_of b1 /\ burnIn_phaseII_of b1 <= n
  | inl _ => 5 * 2 ^ 64 <= n
  end.
Proof.
  intros Hn. unfold burnIn_phaseI_of, np_floor_int.
  assert (Hk : 0 <= n / 5) by (apply Z.div_pos; lia).
  assert (H5 : 5 * (n / 5) <= n) by (apply Z.mul_div_le; lia).
  destruct ((n / 5 <? - 2 ^ 63) || (2 ^ 64 <=? n / 5)) eqn:Hr.
  - apply orb_true_iff in Hr as [Hr|Hr]; [apply Z.ltb_lt in Hr; lia|].
    apply Z.leb_le in Hr. lia.
  - destruct (trunc_mul_bound (n / 5) Hk) as [H0 H1].
    unfold burnIn_phaseII_of. lia.
Qed.

Lemma burnIn_phases_within_budget_witness :
  0 <= 1000 /\ burnIn_phaseI_of 1000 = inr 240 /\
  (burnIn_phaseII_of 240 = 2 * 240 /\
   0 <= 240 /\ 240 <= burnIn_phaseII_of 240 /\ burnIn_phaseII_of 240 <= 1000).
Proof.
  pose proof (burnIn_phases_within_budget 1000 ltac:(lia)) as H.
  assert (E : burnIn_phaseI_of 1000 = inr 240) by reflexivity.
  rewrite E in H. split; [lia|]. split; [exact E|exact H].
Defined.

(** ** C4: the time rescaling *)

Section RescaleQ.
Local Open Scope Q_scope.

Lemma np_diff_length {A} (o : NumOps A) (t : list A) :
  length (np_diff o t) = (length t - 1)%nat.
Proof.
  induction t as [|x [|y r] IH]; [reflexivity|reflexivity|].
  cbn [np_diff length] in *. rewrite IH. cbn. lia.
Qed.

(** The differences telescope. *)
Lemma np_diff_sum_Q (r : list Q) (x acc : Q) :
  fold_left Qplus (np_diff Q_ops (x :: r)) acc == acc + (List.last (x :: r) 0 - x).
Proof.
  revert x acc. induction r as [|y r IH]; intros x acc.
  - cbn. ring.
  - cbn [np_diff Q_ops n_sub fold_left].
    eapply Qeq_trans; [apply IH|].
    change (List.last (x :: y :: r) 0) with (List.last (y :: r) 0). ring.
Qed.

Lemma last_map_cons {A B} (f : A -> B) (x : A) (r : list A) (da : A) (db : B) :
  List.last (map f (x :: r)) db = f (List.last (x :: r) da).
Proof.
  revert x. induction r as [|y r IH]; intros x; [reflexivity|].
  change (List.last (map f (x :: y :: r)) db) with (List.last (map f (y :: r)) db).
  rewrite IH. reflexivity.
Qed.

Lemma increasing_last_Q (x : Q) (r : list Q) :
  increasing Qlt (x :: r) -> r <> [] -> x < List.last (x :: r) 0.
Proof.
  revert x. induction r as [|y r IH]; intros x Hi Hne; [congruence|].
  destruct Hi as [Hxy Hr].
  change (List.last (x :: y :: r) 0) with (List.last (y :: r) 0).
  destruct r as [|z r'].
  - exact Hxy.
  - apply Qlt_trans with y; [exact Hxy|]. apply IH; [exact Hr|discriminate].
Qed.

Lemma increasing_div_Q (t : list Q) (d : Q) :
  0 < d -> increasing Qlt t -> increasing Qlt (map (fun x => x / d) t).
Proof.
  intros Hd. induction t as [|x [|y r] IH]; intros Hi; [exact I|exact I|].
  destruct Hi as [Hxy Hr]. split.
  - unfold Qdiv. apply Qmult_lt_r; [apply Qinv_lt_0_compat; exact Hd|exact Hxy].
  - apply IH. exact Hr.
Qed.

Lemma Q_mean_one (L x d n : Q) :
  ~ n == 0 -> ~ L - x == 0 -> d == (L - x) / n -> (0 + (L / d - x / d)) / n == 1.
Proof.
  intros Hn HLx Hd. rewrite Hd. field. split; [exact Hn|exact HLx].
Qed.

Lemma pos_length_Q (x : Q) (r : list Q) :
  r <> [] -> 0 < inject_Z (Z.of_nat (length (x :: r) - 1)).
Proof.
  intros Hr. destruct r as [|y r]; [congruence|].
  cbn [length]. replace (S (S (length r)) - 1)%nat with (S (length r)) by lia.
  unfold Qlt. cbn [Qnum Qden inject_Z]. lia.
Qed.

(** Claim C4 (amended).  The script divides the time vector by
    [d = np.mean(np.diff(t))].  In exact arithmetic, for every strictly
    increasing [t] of length at least 2, the mean spacing of [t / d] is
    exactly 1 and [t / d] is strictly increasing.  (In float64 the mean
    spacing is 1 only up to rounding: see
    [rescaled_mean_spacing_float_counterexample].) *)
Theorem rescaled_mean_spacing_exact (t : list Q) :
  increasing Qlt t -> (2 <= length t)%nat ->
  np_mean Q_ops (np_diff Q_ops (rescale_t Q_ops t)) == 1 /\
  increasing Qlt (rescale_t Q_ops t).
Proof.
  intros Hi Hl. destruct t as [|x r]; [cbn in Hl; lia|].
  assert (Hr : r <> []) by (destruct r; cbn in Hl; [lia|discriminate]).
  assert (HxL : x < List.last (x :: r) 0) by (apply increasing_last_Q; assumption).
  pose proof (pos_length_Q x r Hr) as Hn.
  set (L := List.last (x :: r) 0) in *.
  set (n := inject_Z (Z.of_nat (length (x :: r) - 1))) in *.
  unfold rescale_t.
  set (d := np_mean Q_ops (np_diff Q_ops (x :: r))).
  assert (Hd : d == (L - x) / n).
  { unfold d, np_mean, np_sum. cbn [n_add n_zero n_div n_of_nat Q_ops].
    rewrite np_diff_length. fold n.
    eapply Qeq_trans; [apply Qdiv_comp; [apply np_diff_sum_Q|reflexivity]|].
    fold L. field. apply Qnot_eq_sym, Qlt_not_eq. exact Hn. }
  assert (Hdpos : 0 < d).
  { rewrite Hd. unfold Qdiv. apply Qmult_lt_0_compat; [|apply Qinv_lt_0_compat; exact Hn].
    apply Qlt_minus_iff in HxL. exact HxL. }
  cbn [n_div Q_ops]. split.
  - unfold np_mean, np_sum. cbn [n_add n_zero n_div n_of_nat Q_ops].
    rewrite np_diff_length, length_map. fold n.
    change (map (fun y => y / d) (x :: r)) with ((x / d) :: map (fun y => y / d) r).
    eapply Qeq_trans; [apply Qdiv_comp; [apply np_diff_sum_Q|reflexivity]|].
    change ((x / d) :: map (fun y => y / d) r) with (map (fun y => y / d) (x :: r)).
    rewrite (last_map_cons (fun y => y / d) x r 0 0). fold L.
    apply Q_mean_one; [apply Qnot_eq_sym, Qlt_not_eq; exact Hn| |exact Hd].
    intros H. apply Qlt_minus_iff in HxL. rewrite H in HxL. discriminate.
  - apply increasing_div_Q; assumption.
Qed.

Lemma rescaled_mean_spacing_exact_witness :
  increasing Qlt [0; 1; 3] /\ (2 <= length [0; 1; 3])%nat /\
  (np_mean Q_ops (np_diff Q_ops (rescale_t Q_ops [0; 1; 3])) == 1 /\
   increasing Qlt (rescale_t Q_ops [0; 1; 3])).
Proof.
  assert (H1 : increasing Qlt [0; 1; 3]) by (cbn; repeat split; reflexivity).
  assert (H2 : (2 <= length [0; 1; 3])%nat) by (cbn; lia).
  split; [exact H1|split; [exact H2|]].
  apply (rescaled_mean_spacing_exact [0; 1; 3]); assumption.
Defined.

End RescaleQ.

(** Claim C4 (counterexample).  The input times 0, 0.7, 2.9 are strictly
    increasing, yet in the vector handed to [core.gibbs_sampler] (the third
    call of the run) the float64 mean of the consecutive differences is
    0.9999999999999999, not 1. *)
Lemma rescaled_mean_spacing_float_counterexample :
  match nth_error (st_trace (run_main (spec_lib data_t3)
                      (default_args "in.txt" "out") (seed_state 0)).1) 2 with
  | Some (EvSamplerInit cfg) =>
      increasing (fun x y => PrimFloat.ltb x y = true) (r_t data_t3) /\
      PrimFloat.eqb (np_mean float_ops (np_diff float_ops (cfg_t cfg))) 1%float = false
  | _ => False
  end.
Proof. vm_compute. split; [repeat split | reflexivity]. Qed.

(** ** The grouping loop *)

Lemma members_cons (c : Z) x xs :
  members c (x :: xs) = if decide (x.2.2 = c) then x.1 :: members c xs else members c xs.
Proof. unfold members. rewrite filter_cons. destruct (decide _); reflexivity. Qed.

Lemma group_fold_lookup xs acc (c : Z) :
  (foldl group_step acc xs).1 !! c =
  match acc.1 !! c, members c xs with
  | None, [] => None
  | o, ms => Some (default [] o ++ ms)
  end.
Proof.
  induction xs as [|x xs IH] in acc |- *.
  - cbn. destruct (acc.1 !! c); [rewrite app_nil_r|]; reflexivity.
  - cbn [foldl]. rewrite IH. destruct acc as [lab nm]. destruct x as [g [n c']].
    unfold group_step. cbn [fst]. rewrite members_cons. cbn [fst snd].
    destruct (decide (c' = c)) as [->|Hne].
    + rewrite lookup_insert_eq. destruct (lab !! c); cbn [default];
        destruct (members c xs); cbn; rewrite ?app_nil_r, <- ?app_assoc; reflexivity.
    + rewrite lookup_insert_ne by exact Hne. reflexivity.
Qed.

Lemma group_lookup names a (c : Z) :
  (group names a).1 !! c =
  match members c (enumerate_zip names a) with [] => None | ms => Some ms end.
Proof.
  unfold group. rewrite group_fold_lookup. cbn [fst]. rewrite lookup_empty.
  destruct (members c _); reflexivity.
Qed.

Lemma In_members (c : Z) g xs : In g (members c xs) <-> exists n, In (g, (n, c)) xs.
Proof.
  induction xs as [|[g' [n' c']] xs IH].
  - cbn. split; [tauto|intros [? []]].
  - rewrite members_cons. cbn [fst snd].
    destruct (decide (c' = c)) as [->|Hne]; cbn [In]; rewrite ?IH; split.
    + intros [->|[n H]]; [exists n'; left; reflexivity|exists n; right; exact H].
    + intros [n [H|H]]; [inversion H; subst; left; reflexivity|right; exists n; exact H].
    + intros [n H]. exists n. right. exact H.
    + intros [n [H|H]]; [inversion H; congruence|exists n; exact H].
Qed.

Lemma In_zip_seq {B} (l : list B) k g p :
  In (g, p) (zip (seq k (length l)) l) <-> (k <= g)%nat /\ l !! (g - k)%nat = Some p.
Proof.
  revert k. induction l as [|p0 l IH]; intros k.
  - cbn. split; [tauto|intros [_ H]; discriminate].
  - cbn [length seq zip_with In]. rewrite IH. split.
    + intros [H|[H1 H2]].
      * inversion H; subst. split; [lia|]. rewrite Nat.sub_diag. reflexivity.
      * split; [lia|]. replace (g - k)%nat with (S (g - S k)) by lia. exact H2.
    + intros [H1 H2]. destruct (decide (g = k)) as [->|Hne].
      * left. rewrite Nat.sub_diag in H2. cbn in H2. inversion H2. reflexivity.
      * right. split; [lia|]. replace (g - k)%nat with (S (g - S k)) in H2 by lia.
        exact H2.
Qed.

Lemma In_enumerate_zip names a g n (c : Z) :
  In (g, (n, c)) (enumerate_zip names a) <-> names !! g = Some n /\ a !! g = Some c.
Proof.
  unfold enumerate_zip. rewrite In_zip_seq, Nat.sub_0_r, lookup_zip_with.
  split.
  - intros [_ H]. destruct (names !! g), (a !! g); cbn in H; inversion H; auto.
  - intros [H1 H2]. split; [lia|]. rewrite H1, H2. reflexivity.
Qed.

Lemma length_enumerate_zip names a : length names = length a ->
  length (enumerate_zip names a) = length a.
Proof.
  intros Hl. unfold enumerate_zip. rewrite length_zip_with, length_seq, length_zip_with. lia.
Qed.

Lemma map_fst_zip_seq {B} (l : list B) k :
  map fst (zip (seq k (length l)) l) = seq k (length l).
Proof. revert k. induction l as [|p l IH]; intros k; cbn; [reflexivity|]. rewrite IH. reflexivity. Qed.

Lemma SSorted_seq k n : StronglySorted lt (seq k n).
Proof.
  revert k. induction n as [|n IH]; intros k; cbn; constructor; [apply IH|].
  apply Forall_forall. intros x Hx. apply list_elem_of_In, in_seq in Hx. lia.
Qed.

Lemma members_incl (c : Z) y xs : In y (members c xs) -> In y (map fst xs).
Proof.
  intros H. apply In_members in H as [n H]. apply in_map_iff. exists (y, (n, c)). auto.
Qed.

Lemma SSorted_members (c : Z) xs :
  StronglySorted lt (map fst xs) -> StronglySorted lt (members c xs).
Proof.
  induction xs as [|x xs IH]; intros H; [constructor|].
  cbn in H. inversion H as [|? ? Hs Hf]; subst.
  rewrite members_cons. destruct (decide _); [constructor|]; auto.
  rewrite Forall_forall in Hf |- *. intros y Hy. apply Hf. apply list_elem_of_In. apply (members_incl c).
  apply list_elem_of_In. exact Hy.
Qed.

Lemma sum_lengths_perm (l1 l2 : list (Z * list nat)) : Permutation l1 l2 ->
  sum_list (map (fun kv => length kv.2) l1) = sum_list (map (fun kv => length kv.2) l2).
Proof. induction 1; cbn; lia. Qed.

Lemma total_members_insert (m : gmap Z (list nat)) c x : m !! c = None ->
  total_members (<[c := x]> m) = (length x + total_members m)%nat.
Proof.
  intros H. unfold total_members. rewrite (sum_lengths_perm _ _ (map_to_list_insert m c x H)).
  reflexivity.
Qed.

Lemma total_members_step (m : gmap Z (list nat)) c g :
  total_members (<[c := default [] (m !! c) ++ [g]]> m) = S (total_members m).
Proof.
  destruct (m !! c) as [l|] eqn:E; cbn [default].
  - rewrite <- (insert_delete_eq m c).
    rewrite total_members_insert by apply lookup_delete_eq.
    rewrite <- (insert_delete_id m c l E) at 2.
    rewrite total_members_insert by apply lookup_delete_eq.
    rewrite length_app. cbn [length]. unfold id. lia.
  - rewrite total_members_insert by exact E. reflexivity.
Qed.

Lemma total_members_fold xs acc :
  total_members (foldl group_step acc xs).1 = (total_members acc.1 + length xs)%nat.
Proof.
  induction xs as [|x xs IH] in acc |- *; cbn [foldl length]; [lia|].
  rewrite IH. destruct acc as [lab nm]. destruct x as [g [n c]].
  unfold group_step. cbn [fst]. rewrite total_members_step. lia.
Qed.

Lemma total_members_empty : total_members ∅ = 0%nat.
Proof. unfold total_members. rewrite map_to_list_empty. reflexivity. Qed.

Lemma group_members_iff names a g (c : Z) : length names = length a ->
  (exists l, (group names a).1 !! c = Some l /\ In g l) <-> a !! g = Some c.
Proof.
  intros Hl. rewrite group_lookup. split.
  - intros [l [H Hin]]. destruct (members c _) as [|y ys] eqn:E; [discriminate|].
    inversion H; subst. rewrite <- E in Hin.
    apply In_members in Hin as [n Hn]. apply In_enumerate_zip in Hn as [_ Ha]; auto.
  - intros Ha. assert (Hg : (g < length names)%nat).
    { rewrite Hl. apply lookup_lt_Some in Ha. exact Ha. }
    apply lookup_lt_is_Some_2 in Hg as [n Hn].
    assert (Hin : In g (members c (enumerate_zip names a))).
    { apply In_members. exists n. apply In_enumerate_zip; auto. }
    destruct (members c _) as [|y ys]; [destruct Hin|]. eexists. split; [reflexivity|exact Hin].
Qed.

(** Claim C10.  For an assignment vector [a] over the genes [names]
    ([length names = length a]), [optimal_cluster_labels] is a partition
    of the gene indices [0 .. length a - 1]: a gene is in the list of
    cluster [c] exactly when [a[g] = c], so every index is in one list and
    the lists of distinct clusters are disjoint; the list lengths sum to
    [length a]; each list is strictly increasing. *)
Theorem grouping_is_partition (names : list string) (a : list Z) :
  length names = length a ->
  (forall g c, (exists l, (group names a).1 !! c = Some l /\ In g l) <-> a !! g = Some c) /\
  (forall g, (g < length a)%nat -> exists c l, (group names a).1 !! c = Some l /\ In g l) /\
  (forall c1 c2 l1 l2 g, (group names a).1 !! c1 = Some l1 ->
     (group names a).1 !! c2 = Some l2 -> In g l1 -> In g l2 -> c1 = c2) /\
  (forall c l, (group names a).1 !! c = Some l -> StronglySorted lt l) /\
  total_members (group names a).1 = length a.
Proof.
  intros Hl. split; [|split; [|split; [|split]]].
  - intros g c. apply group_members_iff. exact Hl.
  - intros g Hg. apply lookup_lt_is_Some_2 in Hg as [c Hc]. exists c.
    apply (group_members_iff names a g c Hl). exact Hc.
  - intros c1 c2 l1 l2 g H1 H2 I1 I2.
    assert (A1 : a !! g = Some c1) by (apply (group_members_iff names a g c1 Hl); eauto).
    assert (A2 : a !! g = Some c2) by (apply (group_members_iff names a g c2 Hl); eauto).
    congruence.
  - intros c l H. rewrite group_lookup in H.
    destruct (members c _) eqn:E; [discriminate|]. inversion H; subst. rewrite <- E.
    apply SSorted_members. unfold enumerate_zip.
    rewrite map_fst_zip_seq. apply SSorted_seq.
  - unfold group. rewrite total_members_fold. cbn [fst]. rewrite total_members_empty.
    rewrite length_enumerate_zip by exact Hl. reflexivity.
Qed.

Lemma grouping_is_partition_witness :
  length ["g1"; "g2"; "g3"] = length [2; 0; 2] /\
  ((forall g c, (exists l, (group ["g1"; "g2"; "g3"] [2; 0; 2]).1 !! c = Some l /\ In g l) <->
      [2; 0; 2] !! g = Some c) /\
   (forall g, (g < length [2; 0; 2])%nat ->
      exists c l, (group ["g1"; "g2"; "g3"] [2; 0; 2]).1 !! c = Some l /\ In g l) /\
   (forall c1 c2 l1 l2 g, (group ["g1"; "g2"; "g3"] [2; 0; 2]).1 !! c1 = Some l1 ->
      (group ["g1"; "g2"; "g3"] [2; 0; 2]).1 !! c2 = Some l2 -> In g l1 -> In g l2 -> c1 = c2) /\
   (forall c l, (group ["g1"; "g2"; "g3"] [2; 0; 2]).1 !! c = Some l -> StronglySorted lt l) /\
   total_members (group ["g1"; "g2"; "g3"] [2; 0; 2]).1 = length [2; 0; 2]).
Proof.
  split; [reflexivity|].
  apply (grouping_is_partition ["g1"; "g2"; "g3"] [2; 0; 2]). reflexivity.
Defined.

(** ** The monad *)

Lemma seed_bind {B} (n : Z) (k : unit -> M B) st :
  (np_seed n ≫= k) st = k tt (mkSt (seed_state n) (st_trace st ++ [EvSeed n])).
Proof. reflexivity. Qed.

Lemma main_unfold {GS GP} (lib : Lib GS GP) a st :
  main lib a st = match pipeline lib a st with
                  | (st', inr o) => report lib a o st'
                  | (st', inl e) => (st', inl e)
                  end.
Proof. reflexivity. Qed.

Lemma pipeline_help {GS GP} (lib : Lib GS GP) a st :
  gene_expression_matrix a = None \/ output_path_prefix a = None ->
  pipeline lib a st = (mkSt (st_rng st) (st_trace st ++ [EvHelp]), inl SystemExit).
Proof.
  intros H. unfold pipeline.
  destruct (gene_expression_matrix a), (output_path_prefix a);
    [destruct H; discriminate|reflexivity..].
Qed.

Lemma pipeline_bad_criterion {GS GP} (lib : Lib GS GP) a st i o :
  gene_expression_matrix a = Some i -> output_path_prefix a = Some o ->
  criterion_ok (criterion a) = false ->
  pipeline lib a st = (st, inl (ValueError criterion_msg)).
Proof. intros H1 H2 H3. unfold pipeline. rewrite H1, H2, H3. reflexivity. Qed.

Lemma pipeline_seeded_eq {GS GP} (lib : Lib GS GP) a st1 st2 i o :
  gene_expression_matrix a = Some i -> output_path_prefix a = Some o ->
  criterion_ok (criterion a) = true -> st_trace st1 = st_trace st2 ->
  pipeline lib a st1 = pipeline lib a st2.
Proof.
  intros H1 H2 H3 H4. unfold pipeline. rewrite H1, H2, H3. cbn [negb].
  rewrite !seed_bind, H4. reflexivity.
Qed.

Lemma run_det {GS GP} (lib : Lib GS GP) a st1 st2 : st_trace st1 = st_trace st2 ->
  (pipeline lib a st1).2 = (pipeline lib a st2).2 /\
  st_trace (pipeline lib a st1).1 = st_trace (pipeline lib a st2).1 /\
  (main lib a st1).2 = (main lib a st2).2 /\
  st_trace (main lib a st1).1 = st_trace (main lib a st2).1.
Proof.
  intros Ht. rewrite !main_unfold.
  destruct (gene_expression_matrix a) as [i|] eqn:E1;
    [destruct (output_path_prefix a) as [o|] eqn:E2|].
  - destruct (criterion_ok (criterion a)) eqn:E3.
    + rewrite (pipeline_seeded_eq lib a st1 st2 i o E1 E2 E3 Ht). auto.
    + rewrite !(pipeline_bad_criterion lib a _ i o E1 E2 E3). cbn. auto.
  - rewrite !pipeline_help by auto. cbn. rewrite Ht. auto.
  - rewrite !pipeline_help by auto. cbn. rewrite Ht. auto.
Qed.

(** ** Claim C1 *)

(** Claim C1 (amended).  With an unrecognised criterion the script never
    reads the input, builds or runs the sampler, or writes a file.  When
    both [-i] and [-o] are given it raises [ValueError] with an empty trace
    and the random state untouched; when one of them is missing it prints
    the help and exits ([SystemExit]) before the criterion is looked at. *)
Theorem invalid_criterion_fails_before_input {GS GP} (lib : Lib GS GP) a r :
  criterion_ok (criterion a) = false ->
  run_main lib a r =
  match gene_expression_matrix a, output_path_prefix a with
  | Some _, Some _ => (init_st r, inl (ValueError criterion_msg))
  | _, _ => (mkSt r [EvHelp], inl SystemExit)
  end.
Proof.
  intros Hc. unfold run_main. rewrite main_unfold.
  destruct (gene_expression_matrix a) as [i|] eqn:E1;
    [destruct (output_path_prefix a) as [o|] eqn:E2|].
  - rewrite (pipeline_bad_criterion lib a _ i o E1 E2 Hc). reflexivity.
  - rewrite pipeline_help by auto. reflexivity.
  - rewrite pipeline_help by auto. reflexivity.
Qed.

Lemma invalid_criterion_fails_before_input_witness :
  criterion_ok (criterion (args_with (Some "in.txt") (Some "out") 1%float 4 3 "lbfgsb" "bogus"))
    = false /\
  run_main (spec_lib data3) (args_with (Some "in.txt") (Some "out") 1%float 4 3 "lbfgsb" "bogus")
    (seed_state 0) =
  (init_st (seed_state 0), inl (ValueError criterion_msg)).
Proof.
  assert (H : criterion_ok (criterion (args_with (Some "in.txt") (Some "out") 1%float 4 3
                 "lbfgsb" "bogus")) = false) by reflexivity.
  split; [exact H|].
  exact (invalid_criterion_fails_before_input (spec_lib data3)
           (args_with (Some "in.txt") (Some "out") 1%float 4 3 "lbfgsb" "bogus")
           (seed_state 0) H).
Defined.

(** Claim C1 (counterexample).  Without [-i], an unrecognised criterion
    does not produce a [ValueError]: the script prints its help and exits
    through [SystemExit] ([exit()], status 0). *)
Lemma invalid_criterion_counterexample :
  criterion_ok "bogus" = false /\
  run_main (spec_lib data3) (args_with None (Some "out") 1%float 4 3 "lbfgsb" "bogus")
    (seed_state 0) = (mkSt (seed_state 0) [EvHelp], inl SystemExit).
Proof. split; reflexivity. Qed.

(** ** Claim C3 *)

(** Claim C3.  Two runs with the same arguments and the same package, started
    from any two random states, return the same result and record the same
    calls, for the pipeline up to the refit (whose result holds the
    sampler's similarity matrix and assignment histories) and for the
    whole script: [np.random.seed(1234)] comes before every package call. *)
Theorem runs_deterministic {GS GP} (lib : Lib GS GP) a r1 r2 :
  (pipeline lib a (init_st r1)).2 = (pipeline lib a (init_st r2)).2 /\
  st_trace (pipeline lib a (init_st r1)).1 = st_trace (pipeline lib a (init_st r2)).1 /\
  (run_main lib a r1).2 = (run_main lib a r2).2 /\
  st_trace (run_main lib a r1).1 = st_trace (run_main lib a r2).1.
Proof. apply run_det. reflexivity. Qed.

(** ** Claim C5 *)

Lemma call_trace {B} (e : event) (p : py B) st :
  st_trace (call e p st).1 = st_trace st ++ [e].
Proof. unfold call. destruct (p (st_rng st)). reflexivity. Qed.

Lemma criterion_cases (crit : string) : criterion_ok crit = true ->
  crit = "MPEAR" \/ crit = "MAP" \/ crit = "least_squares" \/
  crit = "h_clust_avg" \/ crit = "h_clust_comp".
Proof.
  unfold criterion_ok, criteria. cbn [existsb]. intros H.
  destruct (String.eqb_spec crit "MAP"); [auto|].
  destruct (String.eqb_spec crit "MPEAR"); [auto|].
  destruct (String.eqb_spec crit "least_squares"); [auto|].
  destruct (String.eqb_spec crit "h_clust_avg"); [auto|].
  destruct (String.eqb_spec crit "h_clust_comp"); [auto|discriminate].
Qed.

Lemma select_optimal_trace {GS GP} (lib : Lib GS GP) crit sampled lls sim st :
  criterion_ok crit = true ->
  exists strategy lk,
    st_trace (select_optimal lib crit sampled lls sim st).1 = st_trace st ++ [EvSelect strategy lk].
Proof.
  intros H. apply criterion_cases in H.
  destruct H as [->|[->|[->|[->| ->]]]]; cbn -[call]; eexists _, _; apply call_trace.
Qed.

(** Claim C5.  For a valid criterion the dispatch runs exactly one of the
    five selectors, chosen by the criterion name: MPEAR and least_squares
    get the thinned archive and S, MAP the thinned archive and the
    log-likelihoods, h_clust_avg and h_clust_comp only S with average or
    complete linkage; the one selector call returns one assignment vector
    ([list Z]), and the dispatch adds exactly one selection call to the
    trace. *)
Theorem selection_exactly_one {GS GP} (lib : Lib GS GP) crit sampled lls sim :
  criterion_ok crit = true ->
  ((crit = "MPEAR" /\ select_optimal lib crit sampled lls sim =
      call (EvSelect "best_clustering_by_mpear" None)
        (best_clustering_by_mpear lib (f_rows sampled) sim)) \/
   (crit = "MAP" /\ select_optimal lib crit sampled lls sim =
      call (EvSelect "best_clustering_by_log_likelihood" None)
        (best_clustering_by_log_likelihood lib (f_rows sampled) lls)) \/
   (crit = "least_squares" /\ select_optimal lib crit sampled lls sim =
      call (EvSelect "best_clustering_by_sq_dist" None)
        (best_clustering_by_sq_dist lib (f_rows sampled) sim)) \/
   (crit = "h_clust_avg" /\ select_optimal lib crit sampled lls sim =
      call (EvSelect "best_clustering_by_h_clust" (Some "average"))
        (best_clustering_by_h_clust lib sim "average")) \/
   (crit = "h_clust_comp" /\ select_optimal lib crit sampled lls sim =
      call (EvSelect "best_clustering_by_h_clust" (Some "complete"))
        (best_clustering_by_h_clust lib sim "complete"))) /\
  (forall st, exists strategy lk,
    st_trace (select_optimal lib crit sampled lls sim st).1 = st_trace st ++ [EvSelect strategy lk]).
Proof.
  intros H. split; [|intros st; apply select_optimal_trace; exact H].
  apply criterion_cases in H.
  destruct H as [->|[->|[->|[->| ->]]]];
    [left|right; left|right; right; left|right; right; right; left|right; right; right; right];
    split; reflexivity.
Qed.

Lemma selection_exactly_one_witness :
  criterion_ok "MAP" = true /\
  ((("MAP" = "MPEAR" /\ select_optimal (spec_lib data3) "MAP" (mkFrame [] []) [] [] =
      call (EvSelect "best_clustering_by_mpear" None)
        (best_clustering_by_mpear (spec_lib data3) (f_rows (mkFrame [] [])) [])) \/
   ("MAP" = "MAP" /\ select_optimal (spec_lib data3) "MAP" (mkFrame [] []) [] [] =
      call (EvSelect "best_clustering_by_log_likelihood" None)
        (best_clustering_by_log_likelihood (spec_lib data3) (f_rows (mkFrame [] [])) [])) \/
   ("MAP" = "least_squares" /\ select_optimal (spec_lib data3) "MAP" (mkFrame [] []) [] [] =
      call (EvSelect "best_clustering_by_sq_dist" None)
        (best_clustering_by_sq_dist (spec_lib data3) (f_rows (mkFrame [] [])) [])) \/
   ("MAP" = "h_clust_avg" /\ select_optimal (spec_lib data3) "MAP" (mkFrame [] []) [] [] =
      call (EvSelect "best_clustering_by_h_clust" (Some "average"))
        (best_clustering_by_h_clust (spec_lib data3) [] "average")) \/
   ("MAP" = "h_clust_comp" /\ select_optimal (spec_lib data3) "MAP" (mkFrame [] []) [] [] =
      call (EvSelect "best_clustering_by_h_clust" (Some "complete"))
        (best_clustering_by_h_clust (spec_lib data3) [] "complete"))) /\
  (forall st, exists strategy lk,
    st_trace (select_optimal (spec_lib data3) "MAP" (mkFrame [] []) [] [] st).1 =
    st_trace st ++ [EvSelect strategy lk])).
Proof.
  assert (H : criterion_ok "MAP" = true) by reflexivity.
  split; [exact H|].
  exact (selection_exactly_one (spec_lib data3) "MAP" (mkFrame [] []) [] [] H).
Defined.

(** ** Bind and the trace *)

Lemma bind_unfold {A B} (c : M A) (k : A -> M B) st :
  (c ≫= k) st = match c st with
                | (st', inr x) => k x st'
                | (st', inl e) => (st', inl e)
                end.
Proof. reflexivity. Qed.

Lemma bind_inv {A B} (c : M A) (k : A -> M B) st st' y :
  (c ≫= k) st = (st', inr y) ->
  exists st1 x, c st = (st1, inr x) /\ k x st1 = (st', inr y).
Proof.
  rewrite bind_unfold. destruct (c st) as [st1 [e|x]]; [discriminate|eauto].
Qed.

Lemma bind_call_ok {A B} (e : event) (p : py A) (k : A -> M B) st r x :
  p (st_rng st) = (r, inr x) ->
  (call e p ≫= k) st = k x (mkSt r (st_trace st ++ [e])).
Proof. intros H. rewrite bind_unfold. unfold call. rewrite H. reflexivity. Qed.

Lemma bind_lift_ok {A B} (r : exn + A) (k : A -> M B) st x :
  r = inr x -> (lift r ≫= k) st = k x st.
Proof. intros ->. reflexivity. Qed.

Lemma Sorted_app_cross {A} (R : A -> A -> Prop) l1 l2 :
  Sorted R l1 -> Sorted R l2 -> (forall x y, In x l1 -> In y l2 -> R x y) ->
  Sorted R (l1 ++ l2).
Proof.
  induction 1 as [|x l1 Hs IH Hd]; intros H2 Hx; [exact H2|]. cbn. constructor.
  - apply IH; [exact H2|]. intros y z Hy Hz. apply Hx; [right; exact Hy|exact Hz].
  - destruct l1 as [|y l1]; cbn.
    + destruct l2 as [|z l2]; constructor. apply Hx; left; reflexivity.
    + inversion Hd. constructor. assumption.
Qed.

Lemma pr_bind {A B} lo hi lo1 hi1 lo2 (c : M A) (k : A -> M B) :
  (lo <= lo1)%nat -> (lo1 <= hi1)%nat -> phase_before hi1 lo2 -> (lo2 <= hi)%nat ->
  phase_range lo1 hi1 c -> (forall x, phase_range lo2 hi (k x)) ->
  phase_range lo hi (c ≫= k).
Proof.
  intros Hl Hl1 Hb Hh Hc Hk st. destruct (Hc st) as [l1 [E1 [S1 F1]]].
  rewrite bind_unfold. destruct (c st) as [st' [e|x]]; cbn in E1.
  - exists l1. split; [exact E1|]. split; [exact S1|].
    eapply Forall_impl; [exact F1|]. intros e' He'. unfold phase_before in Hb. cbv beta in He'. lia.
  - destruct (Hk x st') as [l2 [E2 [S2 F2]]]. exists (l1 ++ l2).
    rewrite E2, E1, app_assoc. split; [reflexivity|]. split.
    + apply Sorted_app_cross; [exact S1|exact S2|].
      intros e1 e2 I1 I2. rewrite List.Forall_forall in F1, F2.
      specialize (F1 e1 I1). specialize (F2 e2 I2). unfold phase_before in *. lia.
    + apply Forall_app. split; eapply Forall_impl; [exact F1| |exact F2|];
        intros e' He'; cbv beta in He'; unfold phase_before in Hb; lia.
Qed.

Lemma pr_nil {A} lo hi (c : M A) : (forall st, st_trace (c st).1 = st_trace st) ->
  phase_range lo hi c.
Proof.
  intros H st. exists []. rewrite app_nil_r. split; [apply H|]. split; constructor.
Qed.

Lemma pr_ret {A} lo hi (x : A) : phase_range lo hi (mret x).
Proof. apply pr_nil. reflexivity. Qed.

Lemma pr_raise {A} lo hi e : phase_range lo hi (@raise A e).
Proof. apply pr_nil. reflexivity. Qed.

Lemma pr_bind_lift {A B} lo hi (r : exn + A) (k : A -> M B) :
  (forall x, phase_range lo hi (k x)) -> phase_range lo hi (lift r ≫= k).
Proof.
  intros Hk st. destruct r as [e|x].
  - exists []. rewrite app_nil_r. split; [reflexivity|]. split; constructor.
  - rewrite (bind_lift_ok _ _ _ x eq_refl). apply Hk.
Qed.

Lemma pr_one lo hi (e : event) : (lo <= phase e <= hi)%nat ->
  Sorted (fun e1 e2 => phase_before (phase e1) (phase e2)) [e] /\
  Forall (fun e => (lo <= phase e <= hi)%nat) [e].
Proof. intros H. split; repeat constructor; lia. Qed.

Lemma pr_call {B} lo hi (e : event) (p : py B) : (lo <= phase e <= hi)%nat ->
  phase_range lo hi (call e p).
Proof. intros H st. exists [e]. rewrite call_trace. split; [reflexivity|]. apply pr_one, H. Qed.

Lemma pr_emit lo hi (e : event) : (lo <= phase e <= hi)%nat -> phase_range lo hi (emit e).
Proof. intros H st. exists [e]. split; [reflexivity|]. apply pr_one, H. Qed.

Lemma pr_seed lo hi n : (lo <= 0 <= hi)%nat -> phase_range lo hi (np_seed n).
Proof. intros H st. exists [EvSeed n]. split; [reflexivity|]. apply pr_one, H. Qed.

Lemma pr_select {GS GP} (lib : Lib GS GP) crit sampled lls sim :
  phase_range 4 4 (select_optimal lib crit sampled lls sim).
Proof.
  unfold select_optimal.
  repeat match goal with
         | |- phase_range _ _ (if ?b then _ else _) => destruct b
         | |- phase_range _ _ (call _ _) => apply pr_call; cbn; lia
         | |- phase_range _ _ (raise _) => apply pr_raise
         end.
Qed.

(** Splits a chain of binds into its steps, each in its phase. *)
Ltac pr_chain :=
  repeat (cbv beta zeta;
    match goal with
    | |- phase_range _ _ (lift _ ≫= _) => apply pr_bind_lift; intros ?
    | |- phase_range ?lo ?hi (call ?e ?p ≫= ?k) =>
        let n := eval cbn in (phase e) in
        let n' := eval cbn in (if Nat.ltb n 5 then S n else n) in
        apply (pr_bind lo hi n n n' (call e p) k);
        [lia|lia|unfold phase_before; lia|lia|apply pr_call; cbn; lia|intros ?]
    | |- phase_range ?lo ?hi (emit ?e ≫= ?k) =>
        let n := eval cbn in (phase e) in
        apply (pr_bind lo hi n n (S n) (emit e) k);
        [lia|lia|unfold phase_before; lia|lia|apply pr_emit; cbn; lia|intros ?]
    | |- phase_range ?lo ?hi (np_seed ?n ≫= ?k) =>
        apply (pr_bind lo hi 0 0 1 (np_seed n) k);
        [lia|lia|unfold phase_before; lia|lia|apply pr_seed; lia|intros ?]
    | |- phase_range ?lo ?hi (select_optimal ?l ?c ?s ?ll ?sm ≫= ?k) =>
        apply (pr_bind lo hi 4 4 5 (select_optimal l c s ll sm) k);
        [lia|lia|unfold phase_before; lia|lia|apply pr_select|intros ?]
    | |- phase_range _ _ (mret _) => apply pr_ret
    | |- phase_range _ _ (raise _) => apply pr_raise
    | |- phase_range _ _ (call _ _) => apply pr_call; cbn; lia
    | |- phase_range _ _ (if ?b then _ else _) => destruct b
    end).

Lemma pr_refit {GS GP} (lib : Lib GS GP) a gem sigma_n t shape rate it items acc :
  phase_range 5 5 (refit_loop lib a gem sigma_n t shape rate it items acc).
Proof.
  induction items as [|[cluster genes] rest IH] in acc |- *; cbn [refit_loop].
  - apply pr_ret.
  - pr_chain. apply IH.
Qed.

Lemma pr_report {GS GP} (lib : Lib GS GP) a o : phase_range 6 6 (report lib a o).
Proof. unfold report. pr_chain. Qed.

Lemma pr_pipeline {GS GP} (lib : Lib GS GP) a : phase_range 0 5 (pipeline lib a).
Proof.
  unfold pipeline.
  destruct (gene_expression_matrix a), (output_path_prefix a); pr_chain.
  apply (pr_bind 5 5 5 5 5); [lia|lia|right; lia|lia|apply pr_refit|intros ?].
  apply pr_ret.
Qed.

Lemma pr_main {GS GP} (lib : Lib GS GP) a : phase_range 0 6 (main lib a).
Proof.
  unfold main. apply (pr_bind 0 6 0 5 6); [lia|lia|left; lia|lia|apply pr_pipeline|].
  intros o. apply pr_report.
Qed.

(** ** A successful pipeline *)

Lemma list_to_set_keys {B} (m : gmap Z B) :
  list_to_set (map fst (map_to_list m)) = (dom m : gset Z).
Proof.
  apply set_eq. intros c.
  rewrite elem_of_list_to_set, elem_of_dom, list_elem_of_In, in_map_iff. split.
  - intros [[c' v] [Hc Hin]]. cbn in Hc. subst c'.
    apply list_elem_of_In, elem_of_map_to_list in Hin. eexists. exact Hin.
  - intros [v Hv]. exists (c, v). split; [reflexivity|].
    apply list_elem_of_In, elem_of_map_to_list. exact Hv.
Qed.

Lemma refit_loop_ok {GS GP} (lib : Lib GS GP) a gem sigma_n t shape rate it items acc
  st st' gp :
  refit_loop lib a gem sigma_n t shape rate it items acc st = (st', inr gp) ->
  st_trace st' = st_trace st ++
    concat (map (fun kv => [EvNewCluster kv.1 kv.2 it; EvUpdate kv.1 it (max_iters a) (optimizer a)])
              items) /\
  dom gp = dom acc ∪ list_to_set (map fst items).
Proof.
  induction items as [|[c genes] rest IH] in acc, st |- *; cbn [refit_loop]; intros H.
  - cbv [mret M_ret] in H. injection H as <- <-. cbn. split; [rewrite app_nil_r; reflexivity|].
    set_solver.
  - apply bind_inv in H as (s1 & Y & HY & H). unfold lift in HY. injection HY as <- _.
    apply bind_inv in H as (s2 & cl & Hc & H).
    pose proof (call_trace (EvNewCluster c genes it)
                  (dp_cluster lib genes sigma_n t Y it) st) as T2.
    rewrite Hc in T2. cbv beta zeta in H.
    apply bind_inv in H as (s3 & cl' & Hc' & H).
    match type of Hc' with call ?e ?p s2 = _ =>
      pose proof (call_trace e p s2) as T3 end.
    rewrite Hc' in T3. cbn in T2, T3.
    apply IH in H as [T D]. split.
    + rewrite T, T3, T2. cbn [map concat]. rewrite <- !app_assoc. reflexivity.
    + rewrite D, !dom_insert_L. cbn [map]. set_solver.
Qed.

Lemma lift_inv {A} (r : exn + A) st st1 x : lift r st = (st1, inr x) -> st1 = st /\ r = inr x.
Proof. unfold lift. intros H. injection H as <- ->. auto. Qed.

Lemma call_inv {B} (e : event) (p : py B) st st1 x :
  call e p st = (st1, inr x) -> st_trace st1 = st_trace st ++ [e].
Proof. intros H. pose proof (call_trace e p st) as T. rewrite H in T. exact T. Qed.

Lemma pipeline_ok_shape {GS GP} (lib : Lib GS GP) a st st' o :
  pipeline lib a st = (st', inr o) ->
  exists i cfg strategy lk,
    gene_expression_matrix a = Some i /\
    o_labels o = (group (r_gene_names (o_read o)) (o_optimal_clusters o)).1 /\
    st_trace st' = st_trace st ++
      [EvSeed 1234;
       EvRead (py_split "," i) (true_times a) (do_not_mean_center a)
         (sigma_n2_shape a) (sigma_n2_rate a);
       EvSamplerInit cfg; EvSamplerRun; EvSelect strategy lk] ++
      refit_events (o_labels o) (iter_num (o_sampler_out o)) (max_iters a) (optimizer a) /\
    dom (o_clusters_GP o) = dom (o_labels o).
Proof.
  intros H. unfold pipeline in H.
  destruct (gene_expression_matrix a) as [i|] eqn:E1;
    [destruct (output_path_prefix a) as [out|] eqn:E2|]; [|cbv in H; discriminate..].
  destruct (criterion_ok (criterion a)) eqn:E3; cbn [negb] in H; [|cbv in H; discriminate].
  rewrite seed_bind in H.
  apply bind_inv in H as (s1 & rd & H1 & H). apply call_inv in H1. cbv beta zeta in H.
  apply bind_inv in H as (s2 & b1 & H2 & H). apply lift_inv in H2 as [-> _].
  apply bind_inv in H as (s3 & gs & H3 & H). apply call_inv in H3.
  apply bind_inv in H as (s4 & so & H4 & H). apply call_inv in H4.
  apply bind_inv in H as (s5 & sampled & H5 & H). apply lift_inv in H5 as [-> _].
  apply bind_inv in H as (s6 & allc & H6 & H). apply lift_inv in H6 as [-> _].
  apply bind_inv in H as (s7 & opt & H7 & H).
  destruct (select_optimal_trace lib (criterion a) sampled (log_likelihoods so) (sim_mat so)
              s4 E3) as (strategy & lk & T7).
  rewrite H7 in T7. cbn in T7.
  apply bind_inv in H as (s8 & gp & H8 & H).
  apply refit_loop_ok in H8 as [T8 D8].
  cbv [mret M_ret] in H. injection H as <- <-.
  eexists i, _, strategy, lk. cbn [o_labels o_read o_optimal_clusters o_sampler_out o_clusters_GP].
  split; [reflexivity|]. split; [reflexivity|]. split.
  - rewrite T8, T7, H4, H3, H1. cbn [st_trace]. unfold refit_events.
    rewrite <- !app_assoc. reflexivity.
  - rewrite D8, list_to_set_keys, dom_empty_L. set_solver.
Qed.

(** ** Claim C6 *)

(** Claim C6.  When the pipeline succeeds, [optimal_cluster_labels] is the
    grouping of the selected assignment, and the refit phase is its last
    part: for each of its entries, once and in its order, a [dp_cluster]
    built from the cluster's member list, then [update_cluster_attributes]
    with the run's [max_iters] and [optimizer].  The grouping's keys have no
    duplicates, so each cluster is refit exactly once; they are the cluster
    ids that the selected assignment gives to some gene; the refit objects
    [optimal_clusters_GP] are keyed by exactly those ids. *)
Theorem refit_each_cluster_once {GS GP} (lib : Lib GS GP) a st st' o :
  pipeline lib a st = (st', inr o) ->
  o_labels o = (group (r_gene_names (o_read o)) (o_optimal_clusters o)).1 /\
  (exists pre, st_trace st' =
     pre ++ refit_events (o_labels o) (iter_num (o_sampler_out o)) (max_iters a) (optimizer a)) /\
  NoDup ((map_to_list (o_labels o)).*1) /\
  dom (o_clusters_GP o) = dom (o_labels o) /\
  (forall c, c ∈ dom (o_labels o) <->
     exists g, (g < length (r_gene_names (o_read o)))%nat /\ o_optimal_clusters o !! g = Some c).
Proof.
  intros H. destruct (pipeline_ok_shape lib a st st' o H) as (i & cfg & strategy & lk & _ & L & T & D).
  split; [exact L|]. split; [eexists; rewrite T, app_assoc; reflexivity|].
  split; [apply NoDup_fst_map_to_list|]. split; [exact D|].
  intros c. rewrite L, elem_of_dom, group_lookup. split.
  - intros [l Hl]. destruct (members c _) as [|g gs] eqn:E; [discriminate|].
    assert (Hg : In g (members c (enumerate_zip (r_gene_names (o_read o)) (o_optimal_clusters o))))
      by (rewrite E; left; reflexivity).
    apply In_members in Hg as [n Hn]. apply In_enumerate_zip in Hn as [Hn Hc].
    exists g. split; [apply lookup_lt_Some in Hn; exact Hn|exact Hc].
  - intros [g [Hg Hc]]. apply lookup_lt_is_Some_2 in Hg as [n Hn].
    assert (Hin : In g (members c (enumerate_zip (r_gene_names (o_read o)) (o_optimal_clusters o)))).
    { apply In_members. exists n. apply In_enumerate_zip. auto. }
    destruct (members c _); [destruct Hin|]. eexists. reflexivity.
Qed.

Lemma refit_each_cluster_once_witness :
  exists st' o,
  pipeline (spec_lib data3) (default_args "in.txt" "out") (init_st (seed_state 0)) = (st', inr o) /\
  (o_labels o = (group (r_gene_names (o_read o)) (o_optimal_clusters o)).1 /\
  (exists pre, st_trace st' =
     pre ++ refit_events (o_labels o) (iter_num (o_sampler_out o)) (max_iters (default_args "in.txt" "out"))
              (optimizer (default_args "in.txt" "out"))) /\
  NoDup ((map_to_list (o_labels o)).*1) /\
  dom (o_clusters_GP o) = dom (o_labels o) /\
  (forall c, c ∈ dom (o_labels o) <->
     exists g, (g < length (r_gene_names (o_read o)))%nat /\ o_optimal_clusters o !! g = Some c)).
Proof.
  eexists _, _. split; [vm_compute; reflexivity|].
  apply (refit_each_cluster_once (spec_lib data3) (default_args "in.txt" "out")
           (init_st (seed_state 0))).
  vm_compute. reflexivity.
Defined.

(** ** Claim C7 *)

Lemma main_extends {GS GP} (lib : Lib GS GP) a st :
  exists l, st_trace (main lib a st).1 = st_trace (pipeline lib a st).1 ++ l.
Proof.
  rewrite main_unfold. destruct (pipeline lib a st) as [st' [e|o]].
  - exists []. rewrite app_nil_r. reflexivity.
  - destruct (pr_report lib a o st') as [l [E _]]. exists l. exact E.
Qed.

(** Claim C7.  The calls of a run come in phase order: seeding, input
    (at most once), sampler construction, the sampling run (one call that
    returns S, both histories, the log-likelihoods and the iteration
    count), selection, refit, reports; the first five happen at most once.
    A run that writes or plots anything had a successful pipeline, and its
    calls are exactly: the seed, one input read, the sampler's construction
    and run, one selection, the refit of every selected cluster, and only
    then the reports. *)
Theorem phases_in_order {GS GP} (lib : Lib GS GP) a r :
  Sorted (fun e1 e2 => phase_before (phase e1) (phase e2)) (st_trace (run_main lib a r).1) /\
  ((exists e, In e (st_trace (run_main lib a r).1) /\ is_report e) ->
   exists st' o i cfg strategy lk l,
     pipeline lib a (init_st r) = (st', inr o) /\
     gene_expression_matrix a = Some i /\
     st_trace (run_main lib a r).1 =
       [EvSeed 1234;
        EvRead (py_split "," i) (true_times a) (do_not_mean_center a)
          (sigma_n2_shape a) (sigma_n2_rate a);
        EvSamplerInit cfg; EvSamplerRun; EvSelect strategy lk] ++
       refit_events (o_labels o) (iter_num (o_sampler_out o)) (max_iters a) (optimizer a) ++ l /\
     Forall is_report l).
Proof.
  split.
  - destruct (pr_main lib a (init_st r) ) as [l [E [S _]]].
    unfold run_main. rewrite E. exact S.
  - intros [e [Hin Hrep]]. unfold run_main in *. rewrite main_unfold in Hin |- *.
    destruct (pipeline lib a (init_st r)) as [st' [err|o]] eqn:Ep.
    + destruct (pr_pipeline lib a (init_st r)) as [l [E [_ F]]].
      rewrite Ep in E. cbn in E, Hin. rewrite E in Hin.
      rewrite List.Forall_forall in F. specialize (F e Hin).
      unfold is_report in Hrep. lia.
    + destruct (pipeline_ok_shape lib a _ st' o Ep) as (i & cfg & strategy & lk & E1 & _ & T & _).
      destruct (pr_report lib a o st') as [l [E [_ F]]].
      exists st', o, i, cfg, strategy, lk, l.
      split; [reflexivity|]. split; [exact E1|]. split.
      * rewrite E, T. cbn [st_trace init_st app]. rewrite <- ?app_assoc. reflexivity.
      * eapply Forall_impl; [exact F|]. intros x Hx. cbv beta in Hx. unfold is_report. lia.
Qed.

Lemma phases_in_order_witness :
  (exists e, In e (st_trace (run_main (spec_lib data3) (default_args "in.txt" "out")
                                (seed_state 0)).1) /\ is_report e) /\
  (exists st' o i cfg strategy lk l,
     pipeline (spec_lib data3) (default_args "in.txt" "out") (init_st (seed_state 0)) = (st', inr o) /\
     gene_expression_matrix (default_args "in.txt" "out") = Some i /\
     st_trace (run_main (spec_lib data3) (default_args "in.txt" "out") (seed_state 0)).1 =
       [EvSeed 1234;
        EvRead (py_split "," i) (true_times (default_args "in.txt" "out"))
          (do_not_mean_center (default_args "in.txt" "out"))
          (sigma_n2_shape (default_args "in.txt" "out")) (sigma_n2_rate (default_args "in.txt" "out"));
        EvSamplerInit cfg; EvSamplerRun; EvSelect strategy lk] ++
       refit_events (o_labels o) (iter_num (o_sampler_out o))
         (max_iters (default_args "in.txt" "out")) (optimizer (default_args "in.txt" "out")) ++ l /\
     Forall is_report l).
Proof.
  assert (H : exists e, In e (st_trace (run_main (spec_lib data3) (default_args "in.txt" "out")
                                (seed_state 0)).1) /\ is_report e).
  { exists (EvSave "clusterings" "out"). split; [|reflexivity].
    vm_compute. repeat first [left; reflexivity | right]. }
  split; [exact H|].
  exact (proj2 (phases_in_order (spec_lib data3) (default_args "in.txt" "out") (seed_state 0)) H).
Defined.

(** ** Claims C2 and C9: what reaches the sampler *)

(** The phases after the sampling run, to the end of the pipeline. *)
Ltac pr_solve :=
  pr_chain;
  try (apply (pr_bind 5 5 5 5 5); [lia|lia|right; lia|lia|apply pr_refit|intros ?; apply pr_ret]).

Lemma run_reaches_sampler {GS GP} (lib : Lib GS GP) a st i o rd r1 b1 :
  gene_expression_matrix a = Some i -> output_path_prefix a = Some o ->
  criterion_ok (criterion a) = true ->
  read_gene_expression_matrices lib (py_split "," i) (true_times a) (do_not_mean_center a)
    (sigma_n2_shape a) (sigma_n2_rate a) (seed_state 1234) = (r1, inr rd) ->
  burnIn_phaseI_of (max_num_iterations a) = inr b1 ->
  exists cfg l,
    cfg = mkSamplerCfg (r_gene_expression_matrix rd) (rescale_t float_ops (r_t rd))
            (max_num_iterations a) (max_iters a) (optimizer a) b1 (burnIn_phaseII_of b1)
            (alpha a) (m a) (s a) (check_convergence a) (r_sigma_n rd) (r_sigma_n2_shape rd)
            (r_sigma_n2_rate rd) (length_scale_mu a) (length_scale_sigma a) (sigma_f_mu a)
            (sigma_f_sigma a) sq_dist_eps post_eps /\
    st_trace (main lib a st).1 = st_trace st ++
      [EvSeed 1234;
       EvRead (py_split "," i) (true_times a) (do_not_mean_center a)
         (sigma_n2_shape a) (sigma_n2_rate a);
       EvSamplerInit cfg] ++ l /\
    (forall r2 gs, gibbs_sampler lib cfg r1 = (r2, inr gs) -> exists l', l = EvSamplerRun :: l').
Proof.
  intros H1 H2 H3 Hr Hb.
  set (cfg := mkSamplerCfg (r_gene_expression_matrix rd) (rescale_t float_ops (r_t rd))
            (max_num_iterations a) (max_iters a) (optimizer a) b1 (burnIn_phaseII_of b1)
            (alpha a) (m a) (s a) (check_convergence a) (r_sigma_n rd) (r_sigma_n2_shape rd)
            (r_sigma_n2_rate rd) (length_scale_mu a) (length_scale_sigma a) (sigma_f_mu a)
            (sigma_f_sigma a) sq_dist_eps post_eps).
  assert (Hp : exists l,
    st_trace (pipeline lib a st).1 = st_trace st ++
      [EvSeed 1234;
       EvRead (py_split "," i) (true_times a) (do_not_mean_center a)
         (sigma_n2_shape a) (sigma_n2_rate a);
       EvSamplerInit cfg] ++ l /\
    (forall r2 gs, gibbs_sampler lib cfg r1 = (r2, inr gs) -> exists l', l = EvSamplerRun :: l')).
  { unfold pipeline. rewrite H1, H2, H3. cbn [negb]. rewrite seed_bind.
    erewrite bind_call_ok by exact Hr. cbv beta zeta.
    rewrite (bind_lift_ok _ _ _ b1 Hb). cbv beta zeta. fold cfg.
    rewrite bind_unfold. unfold call at 1. cbn [st_rng st_trace].
    destruct (gibbs_sampler lib cfg r1) as [r2 [e|gs]] eqn:Eg.
    - exists []. cbn [st_trace]. split; [rewrite <- !app_assoc; reflexivity|].
      intros ? ? Hc. discriminate.
    - rewrite bind_unfold. unfold call at 1. cbn [st_rng st_trace].
      destruct (sampler lib gs r2) as [r3 [e|so]] eqn:Es.
      + exists [EvSamplerRun]. cbn [st_trace]. split; [rewrite <- !app_assoc; reflexivity|eauto].
      + match goal with
        | |- context [st_trace ((?c ≫= ?k) ?s0).1] =>
            assert (Hk : phase_range 4 5 (c ≫= k)) by pr_solve;
            destruct (Hk s0) as [l' [El' _]]; rewrite El'
        end.
        exists (EvSamplerRun :: l'). cbn [st_trace]. split; [rewrite <- !app_assoc; reflexivity|eauto]. }
  destruct Hp as [l [Tp Hl]]. destruct (main_extends lib a st) as [lr Er].
  exists cfg, (l ++ lr). split; [reflexivity|]. split.
  - rewrite Er, Tp, <- !app_assoc. reflexivity.
  - intros r2 gs Hg. destruct (Hl r2 gs Hg) as [l' ->]. eexists. reflexivity.
Qed.

(** Claim C2 (amended).  The script checks none of [alpha], [m] and [s]:
    for every value of them, once [-i] and [-o] are given, the criterion is
    valid, the input is read and the burn-in is derived, the script builds
    [core.gibbs_sampler] with [alpha], [m] and [s] exactly as given, right
    after the seed and the read, and runs [sampler()] as soon as the
    constructor returns.  A configuration error for these values can only
    come from inside the package. *)
Theorem sampler_params_unchecked {GS GP} (lib : Lib GS GP) a st i o rd r1 b1 :
  gene_expression_matrix a = Some i -> output_path_prefix a = Some o ->
  criterion_ok (criterion a) = true ->
  read_gene_expression_matrices lib (py_split "," i) (true_times a) (do_not_mean_center a)
    (sigma_n2_shape a) (sigma_n2_rate a) (seed_state 1234) = (r1, inr rd) ->
  burnIn_phaseI_of (max_num_iterations a) = inr b1 ->
  exists cfg l,
    cfg_alpha cfg = alpha a /\ cfg_m cfg = m a /\ cfg_s cfg = s a /\
    st_trace (main lib a st).1 = st_trace st ++
      [EvSeed 1234;
       EvRead (py_split "," i) (true_times a) (do_not_mean_center a)
         (sigma_n2_shape a) (sigma_n2_rate a);
       EvSamplerInit cfg] ++ l /\
    (forall r2 gs, gibbs_sampler lib cfg r1 = (r2, inr gs) -> exists l', l = EvSamplerRun :: l').
Proof.
  intros H1 H2 H3 Hr Hb.
  destruct (run_reaches_sampler lib a st i o rd r1 b1 H1 H2 H3 Hr Hb) as (cfg & l & Ecfg & T & R).
  exists cfg, l. subst cfg. do 3 (split; [reflexivity|]). split; [exact T|exact R].
Qed.

Lemma sampler_params_unchecked_witness :
  exists cfg l,
    cfg_alpha cfg = alpha (args_with (Some "in.txt") (Some "out") 0%float 0 0 "lbfgsb" "MAP") /\
    cfg_m cfg = m (args_with (Some "in.txt") (Some "out") 0%float 0 0 "lbfgsb" "MAP") /\
    cfg_s cfg = s (args_with (Some "in.txt") (Some "out") 0%float 0 0 "lbfgsb" "MAP") /\
    st_trace (main (spec_lib data3) (args_with (Some "in.txt") (Some "out") 0%float 0 0 "lbfgsb" "MAP")
                (init_st (seed_state 0))).1 =
      [] ++ [EvSeed 1234;
             EvRead ["in.txt"] false false 12%float 2%float;
             EvSamplerInit cfg] ++ l /\
    (forall r2 gs, gibbs_sampler (spec_lib data3) cfg (seed_state 1234) = (r2, inr gs) ->
       exists l', l = EvSamplerRun :: l').
Proof.
  apply (sampler_params_unchecked (spec_lib data3)
           (args_with (Some "in.txt") (Some "out") 0%float 0 0 "lbfgsb" "MAP")
           (init_st (seed_state 0)) "in.txt" "out" data3 (seed_state 1234) 240);
    vm_compute; reflexivity.
Defined.

(** Claim C2 (counterexample).  With [alpha = 0] and the sampler of the
    spec, the run is not stopped by a configuration error: the sampler is
    built and run (its iteration count is 1000, the full budget), a
    clustering is selected and refit, and the script ends normally. *)
Lemma nonpositive_alpha_counterexample :
  PrimFloat.leb (alpha (args_with (Some "in.txt") (Some "out") 0%float 4 3 "lbfgsb" "MAP")) 0 = true /\
  (run_main (spec_lib data3) (args_with (Some "in.txt") (Some "out") 0%float 4 3 "lbfgsb" "MAP")
     (seed_state 0)).2 = inr tt /\
  nth_error (st_trace (run_main (spec_lib data3)
     (args_with (Some "in.txt") (Some "out") 0%float 4 3 "lbfgsb" "MAP") (seed_state 0)).1) 3
    = Some EvSamplerRun /\
  nth_error (st_trace (run_main (spec_lib data3)
     (args_with (Some "in.txt") (Some "out") 0%float 4 3 "lbfgsb" "MAP") (seed_state 0)).1) 5
    = Some (EvNewCluster 0 [0; 1; 2]%nat 1000).
Proof. vm_compute. repeat split. Qed.

(** Claim C9.  The optimizer name is never checked: for every string given
    as [--optimizer], once [-i] and [-o] are given, the criterion is valid,
    the input is read and the burn-in is derived, the script builds
    [core.gibbs_sampler] with that string unchanged, right after the seed
    and the read, and runs [sampler()] as soon as the constructor returns. *)
Theorem optimizer_passed_unchecked {GS GP} (lib : Lib GS GP) a st i o rd r1 b1 :
  gene_expression_matrix a = Some i -> output_path_prefix a = Some o ->
  criterion_ok (criterion a) = true ->
  read_gene_expression_matrices lib (py_split "," i) (true_times a) (do_not_mean_center a)
    (sigma_n2_shape a) (sigma_n2_rate a) (seed_state 1234) = (r1, inr rd) ->
  burnIn_phaseI_of (max_num_iterations a) = inr b1 ->
  exists cfg l,
    cfg_optimizer cfg = optimizer a /\
    st_trace (main lib a st).1 = st_trace st ++
      [EvSeed 1234;
       EvRead (py_split "," i) (true_times a) (do_not_mean_center a)
         (sigma_n2_shape a) (sigma_n2_rate a);
       EvSamplerInit cfg] ++ l /\
    (forall r2 gs, gibbs_sampler lib cfg r1 = (r2, inr gs) -> exists l', l = EvSamplerRun :: l').
Proof.
  intros H1 H2 H3 Hr Hb.
  destruct (run_reaches_sampler lib a st i o rd r1 b1 H1 H2 H3 Hr Hb) as (cfg & l & Ecfg & T & R).
  exists cfg, l. subst cfg. split; [reflexivity|]. split; [exact T|exact R].
Qed.

Lemma optimizer_passed_unchecked_witness :
  exists cfg l,
    cfg_optimizer cfg = optimizer (args_with (Some "in.txt") (Some "out") 1%float 4 3 "no_such_optimizer" "MAP") /\
    st_trace (main (spec_lib data3) (args_with (Some "in.txt") (Some "out") 1%float 4 3 "no_such_optimizer" "MAP")
                (init_st (seed_state 0))).1 =
      [] ++ [EvSeed 1234;
             EvRead ["in.txt"] false false 12%float 2%float;
             EvSamplerInit cfg] ++ l /\
    (forall r2 gs, gibbs_sampler (spec_lib data3) cfg (seed_state 1234) = (r2, inr gs) ->
       exists l', l = EvSamplerRun :: l').
Proof.
  apply (optimizer_passed_unchecked (spec_lib data3)
           (args_with (Some "in.txt") (Some "out") 1%float 4 3 "no_such_optimizer" "MAP")
           (init_st (seed_state 0)) "in.txt" "out" data3 (seed_state 1234) 240);
    vm_compute; reflexivity.
Defined.

(* ================================================================== *)
(** * Further properties of the script *)

Lemma str_append_cons (a : ascii) (x y : string) :
  String.append (String a x) y = String a (String.append x y).
Proof. reflexivity. Qed.

Lemma str_append_assoc (x y z : string) :
  String.append (String.append x y) z = String.append x (String.append y z).
Proof.
  induction x as [|a x IH]; [reflexivity|]. rewrite !str_append_cons, IH. reflexivity.
Qed.

Lemma str_append_nil_r (x : string) : String.append x EmptyString = x.
Proof. induction x as [|a x IH]; [reflexivity|]. rewrite str_append_cons, IH. reflexivity. Qed.

Lemma count_char_app (c : ascii) (x y : string) :
  count_char c (String.append x y) = (count_char c x + count_char c y)%nat.
Proof.
  induction x as [|a x IH]; [reflexivity|]. rewrite str_append_cons. cbn [count_char].
  rewrite IH. destruct (Ascii.eqb a c); lia.
Qed.

Lemma split_aux_cons (c : ascii) (x cur : string) : exists p ps, split_aux c x cur = p :: ps.
Proof.
  induction x as [|a x IH] in cur |- *; cbn; [eauto|]. destruct (Ascii.eqb a c); eauto.
Qed.

Lemma py_join_cons2 (sep x p : string) ps :
  py_join sep (x :: p :: ps) = String.append x (String.append sep (py_join sep (p :: ps))).
Proof. reflexivity. Qed.

Lemma split_aux_join (c : ascii) (x cur : string) :
  py_join (String c EmptyString) (split_aux c x cur) = String.append cur x.
Proof.
  induction x as [|a x IH] in cur |- *; cbn [split_aux].
  - cbn. rewrite str_append_nil_r. reflexivity.
  - destruct (Ascii.eqb a c) eqn:E.
    + apply Ascii.eqb_eq in E. subst a.
      destruct (split_aux_cons c x EmptyString) as (p & ps & Hs).
      rewrite Hs, py_join_cons2, <- Hs, IH. reflexivity.
    + rewrite IH, str_append_assoc. reflexivity.
Qed.

Lemma split_aux_length (c : ascii) (x cur : string) :
  length (split_aux c x cur) = S (count_char c x).
Proof.
  induction x as [|a x IH] in cur |- *; cbn; [reflexivity|].
  destruct (Ascii.eqb a c); cbn; rewrite IH; reflexivity.
Qed.

Lemma split_aux_pieces (c : ascii) (x cur : string) : count_char c cur = 0%nat ->
  Forall (fun p => count_char c p = 0%nat) (split_aux c x cur).
Proof.
  induction x as [|a x IH] in cur |- *; intros Hc; cbn.
  - constructor; [exact Hc|constructor].
  - destruct (Ascii.eqb a c) eqn:E.
    + constructor; [exact Hc|]. apply IH. reflexivity.
    + apply IH. rewrite count_char_app. cbn. rewrite E. lia.
Qed.

(** [str.split] at lines 293 and 383: joining the pieces with the separator
    gives back the string; there is one piece more than there are
    separators (an empty string gives one empty piece, a trailing comma an
    empty last piece); no piece contains the separator. *)
Theorem py_split_join_roundtrip (c : ascii) (x : string) :
  py_join (String c EmptyString) (py_split c x) = x /\
  length (py_split c x) = S (count_char c x) /\
  Forall (fun p => count_char c p = 0%nat) (py_split c x).
Proof.
  unfold py_split. split; [|split].
  - apply split_aux_join.
  - apply split_aux_length.
  - apply split_aux_pieces. reflexivity.
Qed.

(** ** Grouping and refit *)

Lemma member_names_cons (c : Z) x xs :
  member_names c (x :: xs) =
  if decide (x.2.2 = c) then x.2.1 :: member_names c xs else member_names c xs.
Proof. unfold member_names. rewrite filter_cons. destruct (decide _); reflexivity. Qed.

Lemma group_fold_lookup_names xs acc (c : Z) :
  (foldl group_step acc xs).2 !! c =
  match acc.2 !! c, member_names c xs with
  | None, [] => None
  | o, ms => Some (default [] o ++ ms)
  end.
Proof.
  induction xs as [|x xs IH] in acc |- *.
  - cbn. destruct (acc.2 !! c); [rewrite app_nil_r|]; reflexivity.
  - cbn [foldl]. rewrite IH. destruct acc as [lab nm]. destruct x as [g [n c']].
    unfold group_step. cbn [snd]. rewrite member_names_cons. cbn [fst snd].
    destruct (decide (c' = c)) as [->|Hne].
    + rewrite lookup_insert_eq. destruct (nm !! c); cbn [default];
        destruct (member_names c xs); cbn; rewrite ?app_nil_r, <- ?app_assoc; reflexivity.
    + rewrite lookup_insert_ne by exact Hne. reflexivity.
Qed.

Lemma mapM_members_names (names : list string) (c : Z) xs :
  Forall (fun x => names !! x.1 = Some x.2.1) xs ->
  mapM (fun g => names !! g) (members c xs) = Some (member_names c xs).
Proof.
  induction xs as [|x xs IH]; intros F; [reflexivity|].
  inversion F as [|? ? Hx Fs]; subst.
  rewrite members_cons, member_names_cons. destruct (decide _).
  - cbn. rewrite Hx, IH by exact Fs. reflexivity.
  - apply IH. exact Fs.
Qed.

Lemma members_nil_iff (c : Z) xs : members c xs = [] <-> member_names c xs = [].
Proof.
  unfold members, member_names.
  destruct (filter _ xs); cbn; split; intros H; try reflexivity; discriminate.
Qed.

Lemma enumerate_zip_names names a :
  Forall (fun x => names !! x.1 = Some x.2.1) (enumerate_zip names a).
Proof.
  apply Forall_forall. intros [g [n c]] Hin. apply list_elem_of_In in Hin.
  apply In_enumerate_zip in Hin as [H _]. exact H.
Qed.

(** The two dictionaries of the grouping loop (lines 353-357) agree: the
    names filed under a cluster, which line 373 writes to the membership
    file, are the names of the gene indices filed under it, in the same
    order; a cluster is a key of one exactly when it is a key of the
    other. *)
Theorem label_names_match_labels (names : list string) (a : list Z) (c : Z) :
  (group names a).2 !! c =
  match (group names a).1 !! c with
  | None => None
  | Some genes => mapM (fun g => names !! g) genes
  end.
Proof.
  rewrite group_lookup. unfold group. rewrite group_fold_lookup_names. cbn [snd].
  rewrite lookup_empty.
  pose proof (mapM_members_names names c _ (enumerate_zip_names names a)) as Hm.
  pose proof (members_nil_iff c (enumerate_zip names a)) as Hn.
  destruct (members c _) as [|g gs] eqn:E.
  - rewrite (proj1 Hn eq_refl). reflexivity.
  - destruct (member_names c _) as [|n ns] eqn:E2.
    + discriminate (proj2 Hn eq_refl).
    + rewrite Hm. reflexivity.
Qed.

Lemma length_enumerate_zip_min names a :
  length (enumerate_zip names a) = Nat.min (length names) (length a).
Proof. unfold enumerate_zip. rewrite length_zip_with, length_seq, length_zip_with. lia. Qed.

(** When the selected assignment and the gene names differ in length,
    [zip] truncates without an error: the grouping holds the genes below
    both lengths, each under its cluster, and nothing else. *)
Theorem grouping_truncates (names : list string) (a : list Z) :
  (forall g c, (exists l, (group names a).1 !! c = Some l /\ In g l) <->
     (g < length names)%nat /\ a !! g = Some c) /\
  total_members (group names a).1 = Nat.min (length names) (length a).
Proof.
  split.
  - intros g c. rewrite group_lookup. split.
    + intros [l [H Hin]]. destruct (members c _) as [|y ys] eqn:E; [discriminate|].
      injection H as <-. rewrite <- E in Hin.
      apply In_members in Hin as [n Hn]. apply In_enumerate_zip in Hn as [Hg Ha].
      split; [apply lookup_lt_Some in Hg; exact Hg|exact Ha].
    + intros [Hg Ha]. apply lookup_lt_is_Some_2 in Hg as [n Hn].
      assert (Hin : In g (members c (enumerate_zip names a))).
      { apply In_members. exists n. apply In_enumerate_zip; auto. }
      destruct (members c _) as [|y ys]; [destruct Hin|]. eexists. split; [reflexivity|exact Hin].
  - unfold group. rewrite total_members_fold. cbn [fst]. rewrite total_members_empty.
    rewrite length_enumerate_zip_min. reflexivity.
Qed.

Lemma take_rows_spec (gem : Mat) (genes : list nat) rows :
  take_rows gem genes = inr rows ->
  length rows = length genes /\ (forall j g, genes !! j = Some g -> rows !! j = gem !! g).
Proof.
  unfold take_rows. destruct (mapM _ genes) as [l|] eqn:E; intros H; [|discriminate].
  injection H as H. subst l. apply mapM_Some in E. split.
  - symmetry. apply (Forall2_length _ _ _ E).
  - intros j g Hj. destruct (Forall2_lookup_l _ _ _ _ _ E Hj) as [y [Hy Hg]]. cbv beta in Hg.
    cbv beta in Hg. rewrite Hg. exact Hy.
Qed.

(** The row selection [gene_expression_matrix[genes,:]] of line 361 does
    not raise when the matrix has at least one row per gene name: every
    member list of the grouping selects, in order, one existing row per
    member. *)
Theorem refit_rows_in_range (names : list string) (a : list Z) (gem : Mat) (c : Z) genes :
  (length names <= length gem)%nat -> (group names a).1 !! c = Some genes ->
  exists rows, take_rows gem genes = inr rows /\ length rows = length genes /\
    (forall j g, genes !! j = Some g -> rows !! j = gem !! g).
Proof.
  intros Hl Hc.
  assert (Hs : is_Some (mapM (fun g => gem !! g) genes)).
  { apply mapM_is_Some. apply Forall_forall. intros g Hg. apply list_elem_of_In in Hg.
    cbn. apply lookup_lt_is_Some_2.
    destruct (proj1 (proj1 (grouping_truncates names a) g c) (ex_intro _ genes (conj Hc Hg)))
      as [H _]. lia. }
  destruct Hs as [rows E]. exists rows.
  assert (Ht : take_rows gem genes = inr rows) by (unfold take_rows; rewrite E; reflexivity).
  split; [exact Ht|]. apply take_rows_spec. exact Ht.
Qed.

(** The refit loop (lines 359-362) stops at the first exception: the calls
    it made are the two calls of each of the first [k] entries, then the
    calls of entry [k] up to the one that raised; nothing of the later
    entries is touched.  An exception before [dp_cluster] of an entry is
    the [IndexError] of its row selection. *)
Theorem refit_stops_at_first_failure {GS GP} (lib : Lib GS GP) a gem sigma_n t shape rate it
  items acc st :
  exists k part,
    st_trace (refit_loop lib a gem sigma_n t shape rate it items acc st).1 =
      st_trace st ++ concat (map (refit_item_events it (max_iters a) (optimizer a)) (take k items))
        ++ part /\
    match (refit_loop lib a gem sigma_n t shape rate it items acc st).2 with
    | inr _ => k = length items /\ part = []
    | inl e => exists c genes, items !! k = Some (c, genes) /\
        ((part = [] /\ e = IndexError /\ take_rows gem genes = inl IndexError) \/
         part = [EvNewCluster c genes it] \/
         part = refit_item_events it (max_iters a) (optimizer a) (c, genes))
    end.
Proof.
  induction items as [|[c genes] rest IH] in acc, st |- *; cbn [refit_loop].
  - exists 0%nat, []. cbn. rewrite !app_nil_r. split; [reflexivity|auto].
  - rewrite !bind_unfold. unfold lift.
    destruct (take_rows gem genes) as [e|Y] eqn:Et; cbv beta iota.
    + exists 0%nat, []. cbn. rewrite !app_nil_r. split; [reflexivity|].
      assert (e = IndexError) as ->.
      { unfold take_rows in Et. destruct (mapM _ genes); congruence. }
      exists c, genes. split; [reflexivity|]. left. auto.
    + rewrite !bind_unfold. unfold call.
      destruct (dp_cluster lib genes sigma_n t Y it (st_rng st)) as [r1 [e|cl]] eqn:Ed;
        cbv beta iota; cbn [st_rng st_trace].
      * exists 0%nat, [EvNewCluster c genes it]. cbn. split; [reflexivity|].
        exists c, genes. split; [reflexivity|]. right. left. reflexivity.
      * rewrite !bind_unfold. unfold call. cbn [st_rng st_trace].
        match goal with
        | |- context [update_cluster_attributes lib ?c0 ?g0 ?s0 ?r0 ?p1 ?p2 ?p3 ?p4 ?i0 ?m0 ?o0 r1] =>
            destruct (update_cluster_attributes lib c0 g0 s0 r0 p1 p2 p3 p4 i0 m0 o0 r1)
              as [r2 [e|cl']] eqn:Eu
        end; cbv beta iota; cbn [st_rng st_trace].
        -- exists 0%nat, (refit_item_events it (max_iters a) (optimizer a) (c, genes)).
           cbn. rewrite <- app_assoc. split; [reflexivity|].
           exists c, genes. split; [reflexivity|]. right. right. reflexivity.
        -- match goal with
           | |- context [refit_loop lib a gem sigma_n t shape rate it rest ?acc' ?st'] =>
               destruct (IH acc' st') as (k & part & T & R)
           end.
           exists (S k), part. split.
           ++ rewrite T. cbn [st_trace take map concat]. rewrite <- !app_assoc. reflexivity.
           ++ destruct (refit_loop _ _ _ _ _ _ _ _ _ _ _).2.
              ** destruct R as (c' & genes' & Hk & R). exists c', genes'. split; [exact Hk|exact R].
              ** destruct R as [-> ->]. split; reflexivity.
Qed.

(** The report without [--plot]. *)
Lemma report_no_plot {GS GP} (lib : Lib GS GP) a o st : plot a = false ->
  exists l, st_trace (report lib a o st).1 = st_trace st ++ l /\
    l `prefix_of` report_saves (o_output_path_prefix o) /\
    ((report lib a o st).2 = inr tt -> l = report_saves (o_output_path_prefix o)).
Proof.
  intros Hp. unfold report. cbv zeta.
  rewrite !bind_unfold. unfold call. cbn [st_rng st_trace].
  destruct (save_posterior_similarity_matrix lib _ _ _ (st_rng st)) as [r1 [e|[]]];
    cbv beta iota; cbn [st_rng st_trace fst snd].
  { eexists. split; [reflexivity|]. split; [|discriminate].
    unfold report_saves. apply prefix_cons, prefix_nil. }
  rewrite !bind_unfold. unfold call. cbn [st_rng st_trace].
  destruct (save_clusterings lib _ _ r1) as [r2 [e|[]]];
    cbv beta iota; cbn [st_rng st_trace fst snd].
  { eexists. split; [rewrite <- app_assoc; reflexivity|]. split; [|discriminate].
    unfold report_saves. apply prefix_cons, prefix_cons, prefix_nil. }
  rewrite !bind_unfold. unfold call. cbn [st_rng st_trace].
  destruct (save_log_likelihoods lib _ _ r2) as [r3 [e|[]]];
    cbv beta iota; cbn [st_rng st_trace fst snd].
  { eexists. split; [rewrite <- !app_assoc; reflexivity|]. split; [|discriminate].
    unfold report_saves. apply prefix_cons, prefix_cons, prefix_cons, prefix_nil. }
  rewrite !bind_unfold. unfold call. cbn [st_rng st_trace].
  destruct (save_cluster_membership_information lib _ _ r3) as [r4 [e|[]]];
    cbv beta iota; cbn [st_rng st_trace fst snd].
  - eexists. split; [rewrite <- !app_assoc; reflexivity|]. split; [reflexivity|discriminate].
  - rewrite Hp. cbv [mret M_ret]. cbn [fst snd].
    eexists. split; [rewrite <- !app_assoc; reflexivity|]. split; reflexivity.
Qed.

Lemma pipeline_ok_out {GS GP} (lib : Lib GS GP) a st st' o :
  pipeline lib a st = (st', inr o) -> output_path_prefix a = Some (o_output_path_prefix o).
Proof.
  intros H. unfold pipeline in H.
  destruct (gene_expression_matrix a) as [i|] eqn:E1;
    [destruct (output_path_prefix a) as [out|] eqn:E2|]; [|cbv in H; discriminate..].
  destruct (criterion_ok (criterion a)) eqn:E3; cbn [negb] in H; [|cbv in H; discriminate].
  rewrite seed_bind in H.
  apply bind_inv in H as (s1 & rd & _ & H). cbv beta zeta in H.
  apply bind_inv in H as (s2 & b1 & _ & H).
  apply bind_inv in H as (s3 & gs & _ & H).
  apply bind_inv in H as (s4 & so & _ & H).
  apply bind_inv in H as (s5 & sampled & _ & H).
  apply bind_inv in H as (s6 & allc & _ & H).
  apply bind_inv in H as (s7 & opt & _ & H).
  apply bind_inv in H as (s8 & gp & _ & H).
  cbv [mret M_ret] in H. injection H as _ <-. reflexivity.
Qed.

(** Without [--plot] a run never plots: its calls are those of the
    pipeline (no writing or plotting), then a prefix of the four saves of
    lines 370-373 into [output_path_prefix], the membership file being
    [output_path_prefix + "_optimal_clustering.txt"]; a run that
    completes makes all four. *)
Theorem run_without_plot {GS GP} (lib : Lib GS GP) a r : plot a = false ->
  exists p l, st_trace (run_main lib a r).1 = p ++ l /\
    Forall (fun e => (phase e < 6)%nat) p /\
    (l = [] \/ exists out, output_path_prefix a = Some out /\ l `prefix_of` report_saves out) /\
    ((run_main lib a r).2 = inr tt ->
       exists out, output_path_prefix a = Some out /\ l = report_saves out).
Proof.
  intros Hp. unfold run_main. rewrite main_unfold.
  destruct (pr_pipeline lib a (init_st r)) as [p [Ep [_ Fp]]].
  destruct (pipeline lib a (init_st r)) as [st' [e|o]] eqn:E.
  - exists p, []. cbn in Ep |- *. rewrite app_nil_r. split; [exact Ep|]. split.
    + eapply Forall_impl; [exact Fp|]. cbv beta. intros x Hx. lia.
    + split; [left; reflexivity|discriminate].
  - destruct (report_no_plot lib a o st' Hp) as (l & T & P & S).
    exists (st_trace st'), l. split; [exact T|]. split.
    + cbn in Ep. rewrite Ep. eapply Forall_impl; [exact Fp|]. cbv beta. intros x Hx. lia.
    + pose proof (pipeline_ok_out lib a _ _ _ E) as Eo. split.
      * right. eauto.
      * intros Hr. eauto.
Qed.

(** With [--plot], once the four saves and [plot_similarity_matrix]
    succeed, the key of line 386 is saved exactly when every returned index
    is a valid gene index; otherwise [gene_names[idx]] raises
    [IndexError] right after the similarity plot, and neither the key nor
    the other two plots are made. *)
Theorem plot_key_index_checked {GS GP} (lib : Lib GS GP) a o st r1 r2 r3 r4 r5 key :
  plot a = true ->
  save_posterior_similarity_matrix lib (sim_mat (o_sampler_out o)) (r_gene_names (o_read o))
    (o_output_path_prefix o) (st_rng st) = (r1, inr tt) ->
  save_clusterings lib (o_sampled_clusterings o) (o_output_path_prefix o) r1 = (r2, inr tt) ->
  save_log_likelihoods lib (log_likelihoods (o_sampler_out o)) (o_output_path_prefix o) r2
    = (r3, inr tt) ->
  save_cluster_membership_information lib (o_label_names o)
    (String.append (o_output_path_prefix o) "_optimal_clustering.txt") r3 = (r4, inr tt) ->
  plot_similarity_matrix lib (sim_mat (o_sampler_out o)) (o_output_path_prefix o)
    (py_split "," (plot_types a)) r4 = (r5, inr key) ->
  exists l,
    st_trace (report lib a o st).1 =
      st_trace st ++ report_saves (o_output_path_prefix o) ++ [EvPlot "similarity_matrix"] ++ l /\
    (Forall (fun i => (i < length (r_gene_names (o_read o)))%nat) key ->
       exists l', l = EvSave "posterior_similarity_matrix_key" (o_output_path_prefix o) :: l') /\
    (~ Forall (fun i => (i < length (r_gene_names (o_read o)))%nat) key ->
       l = [] /\ (report lib a o st).2 = inl IndexError).
Proof.
  intros Hp H1 H2 H3 H4 H5. unfold report. cbv zeta.
  erewrite bind_call_ok by exact H1. erewrite bind_call_ok by exact H2.
  erewrite bind_call_ok by exact H3. erewrite bind_call_ok by exact H4.
  rewrite Hp. cbv zeta. erewrite bind_call_ok by exact H5.
  rewrite bind_unfold. unfold lift at 1.
  destruct (mapM (fun i => r_gene_names (o_read o) !! i) key) as [kn|] eqn:Ek.
  - assert (F : Forall (fun i => (i < length (r_gene_names (o_read o)))%nat) key).
    { assert (Hs : is_Some (mapM (fun i => r_gene_names (o_read o) !! i) key)) by (rewrite Ek; eauto).
      apply mapM_is_Some in Hs. eapply Forall_impl; [exact Hs|]. cbn. intros x Hx.
      apply lookup_lt_is_Some_1 in Hx. exact Hx. }
    rewrite bind_unfold. unfold call at 1. cbn [st_rng st_trace].
    destruct (save_posterior_similarity_matrix_key lib kn _ r5) as [r6 [e|[]]].
    + eexists. split; [cbn; rewrite <- !app_assoc; reflexivity|]. split; [eauto|tauto].
    + match goal with
      | |- context [st_trace ((?c ≫= ?k) ?s0).1] =>
          assert (Hk : phase_range 6 6 (c ≫= k));
          [apply (pr_bind 6 6 6 6 6); [lia|lia|right; lia|lia|apply pr_call; cbn; lia|];
           intros ?; apply pr_call; cbn; lia|];
          destruct (Hk s0) as [l' [El' _]]; rewrite El'
      end.
      eexists. split; [cbn; rewrite <- !app_assoc; reflexivity|]. split; [eauto|tauto].
  - assert (F : ~ Forall (fun i => (i < length (r_gene_names (o_read o)))%nat) key).
    { intros F. assert (Hs : is_Some (mapM (fun i => r_gene_names (o_read o) !! i) key)).
      { apply mapM_is_Some. eapply Forall_impl; [exact F|]. cbn. intros x Hx.
        apply lookup_lt_is_Some_2. exact Hx. }
      rewrite Ek in Hs. destruct Hs as [? Hs]. discriminate. }
    exists []. split; [cbn; rewrite <- ?app_assoc, ?app_nil_r; reflexivity|].
    split; [tauto|]. intros _. split; reflexivity.
Qed.

(** The first check of the gene names against the data is the renaming of
    lines 328-329, after the whole sampling run: when a returned frame has
    not one column per gene name, the run raises [ValueError] right after
    [sampler()], before selecting, refitting or writing anything. *)
Theorem frame_width_checked_after_sampling {GS GP} (lib : Lib GS GP) a r i o rd r1 b1 gs r2 so r3 :
  gene_expression_matrix a = Some i -> output_path_prefix a = Some o ->
  criterion_ok (criterion a) = true ->
  read_gene_expression_matrices lib (py_split "," i) (true_times a) (do_not_mean_center a)
    (sigma_n2_shape a) (sigma_n2_rate a) (seed_state 1234) = (r1, inr rd) ->
  burnIn_phaseI_of (max_num_iterations a) = inr b1 ->
  gibbs_sampler lib (sampler_cfg a rd b1) r1 = (r2, inr gs) ->
  sampler lib gs r2 = (r3, inr so) ->
  (length (r_gene_names rd) <> length (f_columns (sampled_clusterings so)) \/
   length (r_gene_names rd) <> length (f_columns (all_clusterings so)))%nat ->
  run_main lib a r =
    (mkSt r3 [EvSeed 1234;
              EvRead (py_split "," i) (true_times a) (do_not_mean_center a)
                (sigma_n2_shape a) (sigma_n2_rate a);
              EvSamplerInit (sampler_cfg a rd b1); EvSamplerRun],
     inl (ValueError "Length mismatch")).
Proof.
  intros H1 H2 H3 Hr Hb Hg Hs Hw. unfold run_main. rewrite main_unfold.
  unfold pipeline. rewrite H1, H2, H3. cbn [negb]. rewrite seed_bind.
  erewrite bind_call_ok by exact Hr. cbv beta zeta.
  rewrite (bind_lift_ok _ _ _ b1 Hb). cbv beta zeta.
  erewrite bind_call_ok by exact Hg. erewrite bind_call_ok by exact Hs.
  rewrite bind_unfold. unfold lift at 1, set_columns at 1.
  destruct (Nat.eqb_spec (length (r_gene_names rd)) (length (f_columns (sampled_clusterings so))))
    as [E1|E1].
  - rewrite bind_unfold. unfold lift at 1, set_columns at 1.
    destruct (Nat.eqb_spec (length (r_gene_names rd)) (length (f_columns (all_clusterings so))))
      as [E2|E2]; [destruct Hw; contradiction|reflexivity].
  - reflexivity.
Qed.

Lemma round_mag_small (m e : Z) : 0 <= m < 2 ^ 53 -> round_mag m e = (m, e).
Proof.
  intros Hm. unfold round_mag.
  assert (Z.log2 m - 52 <= 0).
  { destruct (Z.eq_dec m 0) as [->|Hne]; [cbv; discriminate|].
    assert (Z.log2 m < 53) by (apply Z.log2_lt_pow2; lia). lia. }
  replace (Z.log2 m - 52 <=? 0) with true by (symmetry; apply Z.leb_le; lia). reflexivity.
Qed.

Lemma round_mag_large (m e : Z) : 0 < Z.log2 m - 52 ->
  let sh := Z.log2 m - 52 in
  2 ^ 52 * 2 ^ sh <= m < 2 ^ 53 * 2 ^ sh /\
  (m / 2 ^ sh) * 2 ^ sh <= m < (m / 2 ^ sh + 1) * 2 ^ sh /\
  (m - (m / 2 ^ sh) * 2 ^ sh < 2 ^ (sh - 1) -> round_mag m e = (m / 2 ^ sh, e + sh)) /\
  (2 ^ (sh - 1) < m - (m / 2 ^ sh) * 2 ^ sh -> round_mag m e = (m / 2 ^ sh + 1, e + sh)) /\
  (round_mag m e = (m / 2 ^ sh, e + sh) \/ round_mag m e = (m / 2 ^ sh + 1, e + sh)).
Proof.
  intros Hsh sh.
  assert (Hm : 0 < m).
  { destruct (Z.lt_total 0 m) as [H|[H|H]]; [exact H| |];
      [subst m; cbv in Hsh; discriminate|rewrite Z.log2_nonpos in Hsh by lia; cbv in Hsh; discriminate]. }
  assert (Hpos : 0 < 2 ^ sh) by (apply Z.pow_pos_nonneg; lia).
  assert (Hl : 2 ^ Z.log2 m <= m < 2 ^ Z.succ (Z.log2 m)) by (apply Z.log2_spec; exact Hm).
  assert (E1 : 2 ^ Z.log2 m = 2 ^ 52 * 2 ^ sh)
    by (rewrite <- Z.pow_add_r by lia; f_equal; unfold sh; lia).
  assert (E2 : 2 ^ Z.succ (Z.log2 m) = 2 ^ 53 * 2 ^ sh)
    by (rewrite <- Z.pow_add_r by lia; f_equal; unfold sh; lia).
  assert (Hd : (m / 2 ^ sh) * 2 ^ sh <= m < (m / 2 ^ sh + 1) * 2 ^ sh).
  { pose proof (Z.mul_div_le m (2 ^ sh) Hpos). pose proof (Z.mod_pos_bound m (2 ^ sh) Hpos).
    pose proof (Z.div_mod m (2 ^ sh) ltac:(lia)). lia. }
  assert (Hr : round_mag m e =
    (if (Z.shiftl 1 (sh - 1) <? m - Z.shiftl (m / 2 ^ sh) sh) ||
        ((m - Z.shiftl (m / 2 ^ sh) sh =? Z.shiftl 1 (sh - 1)) && Z.odd (m / 2 ^ sh))
     then m / 2 ^ sh + 1 else m / 2 ^ sh, e + sh)).
  { unfold round_mag. fold sh. replace (sh <=? 0) with false by (symmetry; apply Z.leb_gt; lia).
    rewrite Z.shiftr_div_pow2 by lia. reflexivity. }
  rewrite Z.shiftl_mul_pow2, Z.shiftl_mul_pow2, Z.mul_1_l in Hr by lia.
  split; [lia|]. split; [exact Hd|]. split; [|split].
  - intros H. rewrite Hr.
    replace (2 ^ (sh - 1) <? m - m / 2 ^ sh * 2 ^ sh) with false by (symmetry; apply Z.ltb_ge; lia).
    replace (m - m / 2 ^ sh * 2 ^ sh =? 2 ^ (sh - 1)) with false by (symmetry; apply Z.eqb_neq; lia).
    reflexivity.
  - intros H. rewrite Hr.
    replace (2 ^ (sh - 1) <? m - m / 2 ^ sh * 2 ^ sh) with true by (symmetry; apply Z.ltb_lt; lia).
    reflexivity.
  - rewrite Hr. destruct (_ || _); auto.
Qed.

Lemma mul_1_2_core (a : Z) : 0 <= a <= 2 ^ 51 ->
  snd (round_mag (a * 5404319552844595) (-52)) < 0 /\
  fst (round_mag (a * 5404319552844595) (-52)) / 2 ^ (- snd (round_mag (a * 5404319552844595) (-52)))
    = 6 * a / 5.
Proof.
  intros Ha.
  set (C := 5404319552844595) in *.
  set (P := a * C).
  destruct (Z.le_gt_cases (Z.log2 P - 52) 0) as [Hs|Hs].
  - (* no rounding: [a <= 1] *)
    assert (HP : P < 2 ^ 53).
    { destruct (Z.eq_dec P 0) as [->|HP0]; [lia|].
      apply Z.log2_lt_cancel. rewrite Z.log2_pow2 by lia. lia. }
    assert (Ha1 : a <= 1) by (unfold P, C in HP; lia).
    rewrite round_mag_small by (unfold P, C; lia). cbn [fst snd].
    split; [lia|].
    destruct (Z.eq_dec a 0) as [->|]; [reflexivity|].
    unfold P, C. replace a with 1 by lia. reflexivity.
  - destruct (round_mag_large P (-52) Hs) as (Hb & Hd & Hdown & Hup & Hcase).
    set (sh := Z.log2 P - 52) in *.
    set (T := 2 ^ sh) in *.
    set (q0 := P / T) in *.
    assert (HT : 0 < T) by (apply Z.pow_pos_nonneg; lia).
    assert (Hsh51 : sh <= 51).
    { assert (P < 2 ^ 104) by (unfold P, C; lia).
      assert (Z.log2 P < 104) by (apply Z.log2_lt_pow2; lia). lia. }
    set (B := 2 ^ (52 - sh)).
    assert (HBT : B * T = 2 ^ 52) by (unfold B, T; rewrite <- Z.pow_add_r by lia; f_equal; lia).
    set (H := 2 ^ (sh - 1)) in *.
    assert (HH : 2 * H = T)
      by (unfold H, T; rewrite <- (Z.pow_1_r 2) at 1; rewrite <- Z.pow_add_r by lia; f_equal; lia).
    assert (HB : 0 < B) by (apply Z.pow_pos_nonneg; lia).
    set (k := 6 * a / 5).
    assert (Hk : 6 * a = 5 * k + (6 * a) mod 5) by (apply Z.div_mod; lia).
    pose proof (Z.mod_pos_bound (6 * a) 5 ltac:(lia)) as Hrho.
    set (rho := (6 * a) mod 5) in *.
    assert (H5P : 5 * P = 5 * k * 2 ^ 52 + rho * 2 ^ 52 - a) by (unfold P, C; lia).
    assert (Ha0 : 1 <= a).
    { destruct (Z.eq_dec a 0) as [E|]; [|lia]. exfalso.
      assert (EP : P = 0) by (unfold P; rewrite E; reflexivity).
      assert (Z.log2 P = 0) by (rewrite EP; reflexivity). unfold sh in Hs. lia. }
    (* the result of the rounding, between [k * B] and [(k + 1) * B - 1] *)
    assert (Hlow : k * B <= fst (round_mag P (-52))).
    { destruct (Z.eq_dec rho 0) as [Hr0|Hr0].
      - (* [a = 5 j], [P = k * 2^52 - j] *)
        assert (Hj : 5 * (P - k * 2 ^ 52) = - a) by lia.
        assert (HTa : 2 * a < 5 * T).
        { assert (P < 2 ^ 53 * T) by lia. unfold P, C in *. lia. }
        assert (Hq0 : q0 = k * B - 1).
        { assert (q0 < k * B).
          { apply (Z.mul_lt_mono_pos_r T); [exact HT|]. rewrite <- Z.mul_assoc, HBT. lia. }
          assert (k * B - 1 < q0 + 1).
          { apply (Z.mul_lt_mono_pos_r T); [exact HT|].
            rewrite Z.mul_sub_distr_r, <- Z.mul_assoc, HBT. lia. }
          lia. }
        assert (Hr : H < P - q0 * T).
        { rewrite Hq0, Z.mul_sub_distr_r, <- Z.mul_assoc, HBT. lia. }
        rewrite (Hup Hr). cbn [fst]. lia.
      - assert (k * B * T < P) by (rewrite <- Z.mul_assoc, HBT; lia).
        assert (k * B < q0 + 1).
        { apply (Z.mul_lt_mono_pos_r T); [exact HT|]. lia. }
        destruct Hcase as [E|E]; rewrite E; cbn [fst]; lia. }
    assert (Hhigh : fst (round_mag P (-52)) < (k + 1) * B).
    { assert (HPk : P < (k + 1) * B * T) by (rewrite <- Z.mul_assoc, HBT; lia).
      assert (Hq : q0 < (k + 1) * B).
      { apply (Z.mul_lt_mono_pos_r T); [exact HT|]. lia. }
      destruct (Z.eq_dec q0 ((k + 1) * B - 1)) as [Eq|Ne].
      - assert (Hr : P - q0 * T < H).
        { (* the distance to the next multiple of [2^52] exceeds half a unit *)
          assert (HD : 5 * ((k + 1) * B * T - P) >= 2 ^ 52 + a).
          { rewrite <- Z.mul_assoc, HBT. lia. }
          assert (HHa : H * 2 ^ 53 <= P) by lia.
          assert (HHa' : 5 * H * 2 ^ 53 <= 3 * a * 2 ^ 53 - a) by (unfold P, C in *; lia).
          assert (HD' : 5 * ((k + 1) * B * T - P) * 2 ^ 53 > 5 * H * 2 ^ 53) by lia.
          assert (H < (k + 1) * B * T - P) by lia.
          rewrite Eq, Z.mul_sub_distr_r. lia. }
        rewrite (Hdown Hr). cbn [fst]. lia.
      - destruct Hcase as [E|E]; rewrite E; cbn [fst]; lia. }
    destruct Hcase as [E|E]; rewrite E in Hlow, Hhigh |- *; cbn [fst snd] in *;
      (split; [lia|]);
      replace (- (-52 + sh)) with (52 - sh) by lia; fold B;
      match goal with
      | |- ?v / B = k => symmetry; apply (Z.div_unique v B k (v - k * B)); [left; lia|ring]
      end.
Qed.

(** The burn-in formula, with the rounding worked out. *)
Lemma burnIn_phaseI_quot (n : Z) : - 2 ^ 51 <= n / 5 <= 2 ^ 51 ->
  burnIn_phaseI_of n = inr (Z.quot (6 * (n / 5)) 5).
Proof.
  intros Hq. unfold burnIn_phaseI_of, np_floor_int.
  replace ((n / 5 <? - 2 ^ 63) || (2 ^ 64 <=? n / 5)) with false
    by (symmetry; apply orb_false_iff; split; [apply Z.ltb_ge|apply Z.leb_gt]; lia).
  f_equal. set (q := n / 5) in *.
  assert (Hi : b64_of_int q = B64 q 0).
  { unfold b64_of_int, round53. cbn [mant expo].
    rewrite round_mag_small by lia. cbv beta iota. rewrite Z.mul_comm, Z.abs_sgn. reflexivity. }
  rewrite Hi. unfold b64_mul, b64_1_2, round53. cbn [mant expo].
  rewrite Z.abs_mul, Z.add_0_l. replace (Z.abs 5404319552844595) with 5404319552844595 by reflexivity.
  destruct (mul_1_2_core (Z.abs q) ltac:(lia)) as [He Hd].
  destruct (round_mag (Z.abs q * 5404319552844595) (-52)) as [q2 e2]. cbn [fst snd] in He, Hd.
  unfold py_int. cbn [mant expo].
  replace (0 <=? e2) with false by (symmetry; apply Z.leb_gt; lia).
  assert (Hp : 0 < 2 ^ (- e2)) by (apply Z.pow_pos_nonneg; lia).
  assert (Hq2 : 0 <= q2).
  { destruct (Z.le_gt_cases 0 q2) as [|Hn]; [lia|].
    assert (q2 / 2 ^ (- e2) < 0) by (apply Z.div_lt_upper_bound; lia).
    assert (0 <= 6 * Z.abs q / 5) by (apply Z.div_pos; lia). lia. }
  rewrite Z.sgn_mul. replace (Z.sgn 5404319552844595) with 1 by reflexivity. rewrite Z.mul_1_r.
  destruct (Z.lt_trichotomy q 0) as [Hn|[E0|Hpq]].
  - rewrite Z.sgn_neg by exact Hn. rewrite Z.abs_neq in Hd by lia.
    replace (-1 * q2) with (- q2) by ring. rewrite Z.quot_opp_l by lia.
    rewrite Z.quot_div_nonneg by lia. rewrite Hd.
    replace (6 * q) with (- (6 * - q)) by ring. rewrite Z.quot_opp_l by lia.
    rewrite Z.quot_div_nonneg by lia. reflexivity.
  - rewrite E0. reflexivity.
  - rewrite Z.sgn_pos by exact Hpq. rewrite Z.abs_eq in Hd by lia. rewrite Z.mul_1_l.
    rewrite !Z.quot_div_nonneg by lia. exact Hd.
Qed.

(** [burnIn_phaseI = int(np.floor(n/5) * 1.2)] is exactly
    [6 * (n/5) / 5] (truncated toward zero) whenever [|n/5| <= 2^51]: the
    float64 rounding of the product never moves it across an integer. *)
Theorem burnIn_phaseI_exact (n : Z) : - 2 ^ 51 <= n / 5 <= 2 ^ 51 ->
  burnIn_phaseI_of n = inr (Z.quot (6 * (n / 5)) 5).
Proof. apply burnIn_phaseI_quot. Qed.

Lemma burnIn_phaseI_exact_witness :
  - 2 ^ 51 <= 1000 / 5 <= 2 ^ 51 /\ burnIn_phaseI_of 1000 = inr (Z.quot (6 * (1000 / 5)) 5).
Proof. split; [vm_compute; split; discriminate|]. apply burnIn_phaseI_exact. vm_compute. split; discriminate. Defined.

(** ** Time rescaling *)

Lemma Qdiv_scale (c x d : Q) : ~ (c == 0)%Q -> (c * x / (c * d) == x / d)%Q.
Proof.
  intros Hc. unfold Qdiv. rewrite Qinv_mult_distr.
  apply Qeq_trans with ((c * / c) * (x * / d))%Q; [ring|].
  rewrite Qmult_inv_r by exact Hc. ring.
Qed.

Lemma np_mean_scale (c : Q) (t : list Q) :
  (np_mean Q_ops (np_diff Q_ops (map (Qmult c) t)) == c * np_mean Q_ops (np_diff Q_ops t))%Q.
Proof.
  unfold np_mean, np_sum. rewrite !np_diff_length, length_map.
  cbn [Q_ops n_div n_zero n_of_nat n_add].
  destruct t as [|x r].
  - cbn. unfold Qdiv. ring.
  - rewrite map_cons, !np_diff_sum_Q.
    pose proof (last_map_cons (Qmult c) x r 0%Q 0%Q) as HL. cbn [map] in HL.
    rewrite HL. unfold Qdiv. ring.
Qed.

(** In exact arithmetic the rescaling of line 297 does not depend on the
    time unit: scaling every time point by a non-zero factor leaves the
    rescaled times unchanged. *)
Theorem rescale_unit_invariant (c : Q) (t : list Q) : ~ (c == 0)%Q ->
  Forall2 Qeq (rescale_t Q_ops (map (Qmult c) t)) (rescale_t Q_ops t).
Proof.
  intros Hc. unfold rescale_t. cbv zeta.
  pose proof (np_mean_scale c t) as Hm.
  set (d' := np_mean Q_ops (np_diff Q_ops (map (Qmult c) t))) in *.
  set (d := np_mean Q_ops (np_diff Q_ops t)) in *.
  clearbody d d'. cbn [Q_ops n_div].
  induction t as [|x r IH]; cbn [map]; constructor; [|exact IH].
  rewrite Hm. apply Qdiv_scale. exact Hc.
Qed.

Lemma rescale_unit_invariant_witness :
  ~ (60 == 0)%Q /\
  Forall2 Qeq (rescale_t Q_ops (map (Qmult 60) [0; 1; 3]%Q)) (rescale_t Q_ops [0; 1; 3]%Q).
Proof.
  assert (H : ~ (60 == 0)%Q) by (intros E; vm_compute in E; discriminate).
  split; [exact H|]. apply rescale_unit_invariant. exact H.
Defined.

(** With a single time point, [np.diff(t)] is empty, its mean is NaN and
    the one rescaled time of line 297 is NaN. *)
Theorem rescale_single_point_nan (x : float) :
  exists y, rescale_t float_ops [x] = [y] /\ PrimFloat.is_nan y = true.
Proof.
  eexists. split; [reflexivity|].
  change (n_div float_ops x (np_mean float_ops (np_diff float_ops [x])))
    with (x / np_mean float_ops (np_diff float_ops [x]))%float.
  replace (np_mean float_ops (np_diff float_ops [x])) with nan by (vm_compute; reflexivity).
  unfold PrimFloat.is_nan. rewrite FloatAxioms.eqb_spec, FloatAxioms.div_spec.
  replace (Prim2SF nan) with S754_nan by (vm_compute; reflexivity).
  destruct (Prim2SF x); reflexivity.
Qed.




(** A negative [--max_num_iterations] is not rejected: for
    [-5 * 2^51 <= n < 0] the burn-in lengths are negative and the second
    phase ends before the first, [burnIn_phaseII < burnIn_phaseI < 0]. *)
Theorem burnIn_negative_iterations (n : Z) : - 5 * 2 ^ 51 <= n < 0 ->
  exists b1, burnIn_phaseI_of n = inr b1 /\ burnIn_phaseII_of b1 < b1 < 0.
Proof.
  intros Hn.
  assert (Hq : - 2 ^ 51 <= n / 5 <= -1).
  { split; [apply Z.div_le_lower_bound; lia|].
    assert (n / 5 < 0) by (apply Z.div_lt_upper_bound; lia). lia. }
  exists (Z.quot (6 * (n / 5)) 5). split; [apply burnIn_phaseI_quot; lia|].
  assert (Hneg : Z.quot (6 * (n / 5)) 5 < 0).
  { replace (6 * (n / 5)) with (- (6 * - (n / 5))) by ring.
    rewrite Z.quot_opp_l by lia. rewrite Z.quot_div_nonneg by lia.
    assert (1 <= 6 * - (n / 5) / 5) by (apply Z.div_le_lower_bound; lia). lia. }
  unfold burnIn_phaseII_of. lia.
Qed.

Lemma burnIn_negative_iterations_witness :
  - 5 * 2 ^ 51 <= -1000 < 0 /\
  exists b1, burnIn_phaseI_of (-1000) = inr b1 /\ burnIn_phaseII_of b1 < b1 < 0.
Proof.
  assert (H : - 5 * 2 ^ 51 <= -1000 < 0) by lia.
  split; [exact H|]. apply burnIn_negative_iterations. exact H.
Defined.

(** ** Witnesses on concrete runs *)

Lemma refit_rows_in_range_witness :
  exists rows, take_rows (r_gene_expression_matrix data3) [0%nat; 2%nat] = inr rows /\
    length rows = length [0%nat; 2%nat] /\
    (forall j g, [0%nat; 2%nat] !! j = Some g -> rows !! j = r_gene_expression_matrix data3 !! g).
Proof.
  apply (refit_rows_in_range (r_gene_names data3) [2; 0; 2] (r_gene_expression_matrix data3) 2).
  - vm_compute. lia.
  - vm_compute. reflexivity.
Defined.

Lemma run_without_plot_witness :
  exists p l, st_trace (run_main (spec_lib data3) (default_args "in.txt" "out") (seed_state 0)).1 = p ++ l /\
    Forall (fun e => (phase e < 6)%nat) p /\
    (l = [] \/ exists out, output_path_prefix (default_args "in.txt" "out") = Some out /\
                           l `prefix_of` report_saves out) /\
    ((run_main (spec_lib data3) (default_args "in.txt" "out") (seed_state 0)).2 = inr tt ->
       exists out, output_path_prefix (default_args "in.txt" "out") = Some out /\ l = report_saves out).
Proof. apply run_without_plot. reflexivity. Defined.

Lemma plot_key_index_checked_witness :
  exists l,
    st_trace (report (spec_lib data3) (plot_args "in.txt" "out") outs3 (init_st (seed_state 1234))).1 =
      st_trace (init_st (seed_state 1234)) ++ report_saves (o_output_path_prefix outs3) ++
        [EvPlot "similarity_matrix"] ++ l /\
    (Forall (fun i => (i < length (r_gene_names (o_read outs3)))%nat) (seq 0 3) ->
       exists l', l = EvSave "posterior_similarity_matrix_key" (o_output_path_prefix outs3) :: l') /\
    (~ Forall (fun i => (i < length (r_gene_names (o_read outs3)))%nat) (seq 0 3) ->
       l = [] /\ (report (spec_lib data3) (plot_args "in.txt" "out") outs3
                   (init_st (seed_state 1234))).2 = inl IndexError).
Proof.
  apply (plot_key_index_checked (spec_lib data3) (plot_args "in.txt" "out") outs3
           (init_st (seed_state 1234)) (seed_state 1234) (seed_state 1234) (seed_state 1234)
           (seed_state 1234) (seed_state 1234) (seq 0 3));
    vm_compute; reflexivity.
Defined.

Lemma frame_width_checked_after_sampling_witness :
  run_main (spec_lib data_names2) (default_args "in.txt" "out") (seed_state 0) =
    (mkSt (seed_state 1234)
       [EvSeed 1234;
        EvRead (py_split "," "in.txt") (true_times (default_args "in.txt" "out"))
          (do_not_mean_center (default_args "in.txt" "out"))
          (sigma_n2_shape (default_args "in.txt" "out")) (sigma_n2_rate (default_args "in.txt" "out"));
        EvSamplerInit (sampler_cfg (default_args "in.txt" "out") data_names2 240); EvSamplerRun],
     inl (ValueError "Length mismatch")).
Proof.
  apply (frame_width_checked_after_sampling (spec_lib data_names2) (default_args "in.txt" "out")
           (seed_state 0) "in.txt" "out" data_names2 (seed_state 1234) 240
           (sampler_cfg (default_args "in.txt" "out") data_names2 240) (seed_state 1234)
           (match (spec_sampler (sampler_cfg (default_args "in.txt" "out") data_names2 240)
                     (seed_state 1234)).2 with
            | inr so => so
            | inl _ => mkSamplerOut [] (mkFrame [] []) (mkFrame [] []) [] 0
            end)
           (seed_state 1234)).
  - reflexivity.
  - reflexivity.
  - reflexivity.
  - reflexivity.
  - reflexivity.
  - reflexivity.
  - vm_compute. reflexivity.
  - left. vm_compute. lia.
Defined.
